(** * tableprinter: the printer facade over the tablewriter renderer

    A shallow embedding of [tableprinter.go]: the [Printer] struct, its
    lazily created and cached renderer, the per-column alignment computation,
    [Render], [RenderRow] and [PrintHeadList].

    Go values are modelled as follows.
    - [int] and [Alignment] (a named [int]) are [Z]; no arithmetic is done on
      them here, only comparison and [len], so no wrap-around arises.
    - A [[]string] or [[][]string] argument is a reference into a store
      ([gmap loc obj]): [Render] writes through its [headers] argument, so the
      caller's view of the slice is part of the model.
    - The receiver [p *Printer] and the renderer it points to are threaded as
      state; a run-time panic is [None]. *)

From stdpp Require Import gmap strings list pretty numbers.

Open Scope Z_scope.

(** ** Alignment *)

Definition Alignment := Z.

Definition AlignDefault : Alignment := 0.
Definition AlignRight : Alignment := 2.
Definition AlignLeft : Alignment := 3.

(** The string "\n". *)
Definition lineFeed : string :=
  String (Ascii.Ascii false true false true false false false false) EmptyString.

(** ** The renderer (package tablewriter)

    The grid-drawing engine is an external collaborator (github.com/kataras/
    tablewriter); its source is not at hand.  It is modelled by the state the
    printer's calls put into it and by a log of what it was asked to draw; the
    text layout itself (widths, wrapping, border characters) is not
    modelled. *)

Inductive Writer :=
  | Stdout
  | Stream (fd : nat).

Record Border := mkBorder {
  Top : bool;
  Left : bool;
  Right : bool;
  Bottom : bool
}.

(** The style options of a table, as set through its [Set...] methods. *)
Record Style := mkStyle {
  align : Z;
  autoFmt : bool;
  autoWrap : bool;
  borders : Border;
  hdrLine : bool;
  hdrAlign : Z;
  rowLine : bool;
  pColumn : string;
  newLine : string;
  pCenter : string
}.

(** One drawing request served by the renderer: a whole table, or one row. *)
Inductive Draw :=
  | DrawTable (hdr : list string) (body : list (list string)) (colAlign : list Z)
  | DrawRow (row : list string) (colAlign : list Z).

Record Table := mkTable {
  ident : nat;                    (* identity of the object NewWriter returned *)
  target : Writer;
  style : Style;
  headers : list string;
  lines : list (list string);
  columnsAlign : list Z;
  written : list Draw             (* what has been drawn on [target] so far *)
}.

Definition withStyle (f : Style → Style) (t : Table) : Table :=
  mkTable (ident t) (target t) (f (style t)) (headers t) (lines t)
          (columnsAlign t) (written t).

Module tablewriter.

(** tablewriter's own defaults; [acquireTable] overrides every one of them. *)
Definition defaultStyle : Style :=
  mkStyle 0 true true (mkBorder true true true true) true 0 false "|"
          lineFeed "+".

Definition NewWriter (k : nat) (w : Writer) : Table :=
  mkTable k w defaultStyle [] [] [] [].

Definition SetAlignment (a : Z) : Table → Table :=
  withStyle (λ s, mkStyle a (autoFmt s) (autoWrap s) (borders s) (hdrLine s)
                          (hdrAlign s) (rowLine s) (pColumn s) (newLine s) (pCenter s)).

Definition SetAutoFormatHeaders (b : bool) : Table → Table :=
  withStyle (λ s, mkStyle (align s) b (autoWrap s) (borders s) (hdrLine s)
                          (hdrAlign s) (rowLine s) (pColumn s) (newLine s) (pCenter s)).

Definition SetAutoWrapText (b : bool) : Table → Table :=
  withStyle (λ s, mkStyle (align s) (autoFmt s) b (borders s) (hdrLine s)
                          (hdrAlign s) (rowLine s) (pColumn s) (newLine s) (pCenter s)).

Definition SetBorders (b : Border) : Table → Table :=
  withStyle (λ s, mkStyle (align s) (autoFmt s) (autoWrap s) b (hdrLine s)
                          (hdrAlign s) (rowLine s) (pColumn s) (newLine s) (pCenter s)).

Definition SetHeaderLine (b : bool) : Table → Table :=
  withStyle (λ s, mkStyle (align s) (autoFmt s) (autoWrap s) (borders s) b
                          (hdrAlign s) (rowLine s) (pColumn s) (newLine s) (pCenter s)).

Definition SetHeaderAlignment (a : Z) : Table → Table :=
  withStyle (λ s, mkStyle (align s) (autoFmt s) (autoWrap s) (borders s) (hdrLine s)
                          a (rowLine s) (pColumn s) (newLine s) (pCenter s)).

Definition SetRowLine (b : bool) : Table → Table :=
  withStyle (λ s, mkStyle (align s) (autoFmt s) (autoWrap s) (borders s) (hdrLine s)
                          (hdrAlign s) b (pColumn s) (newLine s) (pCenter s)).

Definition SetColumnSeparator (sep : string) : Table → Table :=
  withStyle (λ s, mkStyle (align s) (autoFmt s) (autoWrap s) (borders s) (hdrLine s)
                          (hdrAlign s) (rowLine s) sep (newLine s) (pCenter s)).

Definition SetNewLine (nl : string) : Table → Table :=
  withStyle (λ s, mkStyle (align s) (autoFmt s) (autoWrap s) (borders s) (hdrLine s)
                          (hdrAlign s) (rowLine s) (pColumn s) nl (pCenter s)).

Definition SetCenterSeparator (sep : string) : Table → Table :=
  withStyle (λ s, mkStyle (align s) (autoFmt s) (autoWrap s) (borders s) (hdrLine s)
                          (hdrAlign s) (rowLine s) (pColumn s) (newLine s) sep).

(** Modelled from the spec: the data operations of the renderer, whose
    source is not at hand.  Section 6 describes what [Render] does with them:
    it "(re)initializes the underlying grid state if reset, sets headers ...,
    appends all rows, applies column alignment per numericColumns, draws,
    returns the number of lines produced". *)
Definition ClearHeaders (t : Table) : Table :=
  mkTable (ident t) (target t) (style t) [] (lines t) (columnsAlign t) (written t).

Definition ClearRows (t : Table) : Table :=
  mkTable (ident t) (target t) (style t) (headers t) [] (columnsAlign t) (written t).

Definition SetHeader (keys : list string) (t : Table) : Table :=
  mkTable (ident t) (target t) (style t) keys (lines t) (columnsAlign t) (written t).

Definition AppendBulk (rows : list (list string)) (t : Table) : Table :=
  mkTable (ident t) (target t) (style t) (headers t) (lines t ++ rows)
          (columnsAlign t) (written t).

Definition SetColumnAlignment (keys : list Z) (t : Table) : Table :=
  mkTable (ident t) (target t) (style t) (headers t) (lines t) keys (written t).

(** Drawing the table: what is drawn is the current headers, rows and
    column alignment. *)
Definition Render (t : Table) : Table :=
  mkTable (ident t) (target t) (style t) (headers t) (lines t) (columnsAlign t)
          (written t ++ [DrawTable (headers t) (lines t) (columnsAlign t)]).

(** The rows the table holds ("the total amount of rows written to the
    table", as the printer's doc comments put it). *)
Definition NumLines (t : Table) : Z := Z.of_nat (length (lines t)).

(** The alignment a table was last drawn with, [dflt] if none was drawn. *)
Fixpoint lastTableAlignment (ds : list Draw) (dflt : list Z) : list Z :=
  match ds with
  | [] => dflt
  | DrawTable _ _ al :: rest => lastTableAlignment rest al
  | DrawRow _ _ :: rest => lastTableAlignment rest dflt
  end.

(** Modelled from the spec: [RenderRowOnce] is an addition of the
    kataras/tablewriter fork and is not part of the sources at hand.
    Section 6 of the spec: it "appends and immediately draws one additional
    row using previously established alignment"; the doc comment of its
    caller [RenderRow]: "Returns the total amount of rows written to the
    table".  The alignment established before is the one the table was last
    drawn with. *)
Definition RenderRowOnce (row : list string) (t : Table) : Z * Table :=
  (Z.of_nat (length (lines t ++ [row])),
   mkTable (ident t) (target t) (style t) (headers t) (lines t ++ [row])
           (columnsAlign t)
           (written t
            ++ [DrawRow row (lastTableAlignment (written t) (columnsAlign t))])).

End tablewriter.

(** ** The printer *)

Record Printer := mkPrinter {
  out : Writer;
  AutoFormatHeaders : bool;
  AutoWrapText : bool;
  BorderTop : bool;
  BorderLeft : bool;
  BorderRight : bool;
  BorderBottom : bool;
  HeaderLine : bool;
  HeaderAlignment : Alignment;
  RowLine : bool;
  ColumnSeparator : string;
  NewLine : string;
  CenterSeparator : string;
  DefaultAlignment : Alignment;
  NumbersAlignment : Alignment;
  RowLengthTitle : option (Z → bool);     (* [None] is a nil func *)
  AllowRowsOnly : bool;
  table : option Table                    (* [None] is a nil pointer *)
}.

Definition setTable (t : option Table) (p : Printer) : Printer :=
  mkPrinter (out p) (AutoFormatHeaders p) (AutoWrapText p) (BorderTop p) (BorderLeft p)
            (BorderRight p) (BorderBottom p) (HeaderLine p) (HeaderAlignment p)
            (RowLine p) (ColumnSeparator p) (NewLine p) (CenterSeparator p)
            (DefaultAlignment p) (NumbersAlignment p) (RowLengthTitle p)
            (AllowRowsOnly p) t.

(** [var Default]: the value the package variable is declared with.  The
    variable is exported and can be assigned to, so the functions that read
    it take its value at the time of the call as an argument. *)
Definition Default : Printer :=
  mkPrinter Stdout true false false false false false true AlignLeft false
            " " lineFeed " " AlignLeft AlignRight
            (Some (λ rowsLength, 3 <? rowsLength)) true None.

(** [New(w)]: every field but [out] and [table] is copied from the package
    variable, whose value at the call is [dflt]. *)
Definition New (dflt : Printer) (w : Writer) : Printer :=
  mkPrinter w (AutoFormatHeaders dflt) (AutoWrapText dflt)
            (BorderTop dflt) (BorderLeft dflt) (BorderRight dflt) (BorderBottom dflt)
            (HeaderLine dflt) (HeaderAlignment dflt)
            (RowLine dflt) (ColumnSeparator dflt) (NewLine dflt) (CenterSeparator dflt)
            (DefaultAlignment dflt) (NumbersAlignment dflt)
            (RowLengthTitle dflt) (AllowRowsOnly dflt) None.

(** ** calculateColumnAlignment *)

Section alignment.
Context (p : Printer).

(** The body of the outer loop for one index [i]: the cell is set to the
    default alignment, then the inner loop over the positions overwrites it
    at the first [j] equal to [i] and breaks. *)
Fixpoint scanPositions (i : Z) (cell : Z) (numbersColsPosition : list Z) : Z :=
  match numbersColsPosition with
  | [] => cell
  | j :: rest =>
      if i =? j then NumbersAlignment p else scanPositions i cell rest
  end.

Definition alignCell (numbersColsPosition : list Z) (i : nat) : Z :=
  scanPositions (Z.of_nat i) (DefaultAlignment p) numbersColsPosition.

(** [make([]int, size, size)] panics for a negative [size]; then the cells
    are filled in place, index by index. *)
Definition calculateColumnAlignment (numbersColsPosition : list Z) (size : Z)
  : option (list Z) :=
  if size <? 0 then None
  else
    let n := Z.to_nat size in
    Some (foldl (λ columnAlignment i,
                   <[i := alignCell numbersColsPosition i]> columnAlignment)
                (replicate n 0) (seq 0 n)).
End alignment.

(** ** Store and program state *)

(** Slices handed to the printer live in a store; a location stands for the
    slice header the caller holds.  A nil slice and an empty one behave alike
    in this code ([len] is 0, [range] does nothing).

    A [[]string] cell is a backing array together with the slice that spans
    it.  A [[][]string] is a list of rows; each row is itself a slice, and it
    may be a window on a backing array that lives in the store, the one of
    the headers included: then a write through the headers slice is seen
    through the row.  [Rows] is the case where every row has a backing array
    of its own that nothing else refers to; [RowViews] is the general case. *)
Abbreviation loc := positive.

(** The slice [a[from : from+count]] of the backing array at [base]. *)
Record View := mkView {
  base : loc;
  from : nat;
  count : nat
}.

Inductive obj :=
  | Strings (xs : list string)            (* a []string *)
  | Rows (xss : list (list string))       (* a [][]string with rows of its own *)
  | RowViews (vs : list View).            (* a [][]string of shared rows *)

(** The whole of the backing array at [l], as a row; [n] is its length. *)
Definition whole (l : loc) (n : nat) : View := mkView l 0 n.

(** What is read through a view. *)
Definition resolve (m : gmap loc obj) (v : View) : option (list string) :=
  match m !! base v with
  | Some (Strings xs) =>
      if decide (from v + count v ≤ length xs)%nat
      then Some (take (count v) (drop (from v) xs))
      else None
  | _ => None
  end.

(** The rows read through a [[][]string] at this moment. *)
Definition rowsAt (m : gmap loc obj) (l : loc) : option (list (list string)) :=
  match m !! l with
  | Some (Rows xss) => Some xss
  | Some (RowViews vs) => mapM (resolve m) vs
  | _ => None
  end.

Arguments rowsAt : simpl never.

Record State := mkState {
  prn : Printer;                 (* the receiver, [*p] *)
  mem : gmap loc obj;
  made : nat                     (* number of renderer objects created so far *)
}.

(** State and failure: [None] is a panic. *)
Definition M (A : Type) : Type := State → option (A * State).

Definition ret {A} (a : A) : M A := λ s, Some (a, s).

Definition bind {A B} (m : M A) (k : A → M B) : M B :=
  λ s, match m s with
       | Some (a, s') => k a s'
       | None => None
       end.

Definition panic {A} : M A := λ _, None.

Notation "'let*' x ':=' m 'in' k" := (bind m (λ x, k))
  (at level 10, x name, m at level 100, k at level 200).
Notation "m ';;' k" := (bind m (λ _, k))
  (at level 100, k at level 200, right associativity).

Definition getPrinter : M Printer := λ s, Some (prn s, s).

Definition putPrinter (p : Printer) : M unit :=
  λ s, Some (tt, mkState p (mem s) (made s)).

(** [tablewriter.NewWriter(w)] allocates a new renderer object. *)
Definition newWriter (w : Writer) : M Table :=
  λ s, Some (tablewriter.NewWriter (made s) w, mkState (prn s) (mem s) (S (made s))).

(** A method call through the pointer [p.table]. *)
Definition onTable (f : Table → Table) : M unit :=
  let* p := getPrinter in
  match table p with
  | Some t => putPrinter (setTable (Some (f t)) p)
  | None => panic
  end.

Definition askTable {A} (f : Table → A) : M A :=
  let* p := getPrinter in
  match table p with
  | Some t => ret (f t)
  | None => panic
  end.

(** A method call that also returns a result. *)
Definition callTable {A} (f : Table → A * Table) : M A :=
  let* p := getPrinter in
  match table p with
  | Some t => putPrinter (setTable (Some (snd (f t))) p) ;; ret (fst (f t))
  | None => panic
  end.

Definition loadStrings (l : loc) : M (list string) :=
  λ s, match mem s !! l with
       | Some (Strings xs) => Some (xs, s)
       | _ => None
       end.

Definition loadRows (l : loc) : M (list (list string)) :=
  λ s, match rowsAt (mem s) l with
       | Some xss => Some (xss, s)
       | None => None
       end.

Definition store (l : loc) (o : obj) : M unit :=
  λ s, Some (tt, mkState (prn s) (<[l := o]> (mem s)) (made s)).

Definition alloc (o : obj) : M loc :=
  λ s, let l := fresh (dom (mem s)) in
       Some (l, mkState (prn s) (<[l := o]> (mem s)) (made s)).

Definition len {A} (l : list A) : Z := Z.of_nat (length l).

(** ** acquireTable *)

(** The returned pointer is [p.table] itself, so the model returns nothing
    and later calls go through [onTable]. *)
Definition acquireTable : M unit :=
  let* p := getPrinter in
  match table p with
  | None =>
      let* t := newWriter (out p) in
      (* these properties can change until first Print/Render call. *)
      let t := tablewriter.SetAlignment (DefaultAlignment p) t in
      let t := tablewriter.SetAutoFormatHeaders (AutoFormatHeaders p) t in
      let t := tablewriter.SetAutoWrapText (AutoWrapText p) t in
      let t := tablewriter.SetBorders
                 (mkBorder (BorderTop p) (BorderLeft p) (BorderRight p) (BorderBottom p)) t in
      let t := tablewriter.SetHeaderLine (HeaderLine p) t in
      let t := tablewriter.SetHeaderAlignment (HeaderAlignment p) t in
      let t := tablewriter.SetRowLine (RowLine p) t in
      let t := tablewriter.SetColumnSeparator (ColumnSeparator p) t in
      let t := tablewriter.SetNewLine (NewLine p) t in
      let t := tablewriter.SetCenterSeparator (CenterSeparator p) t in
      putPrinter (setTable (Some t) p)
  | Some _ => ret tt
  end.

(** ** Render *)

(** [fmt.Sprintf("%s (%d) ", h, n)] *)
Definition rowLengthLabel (h : string) (n : Z) : string :=
  h +:+ " (" +:+ pretty n +:+ ") ".

(** The tail of [Render], after the header branch. *)
Definition renderBody (headers rows : loc) (numbersColsPosition : list Z) : M Z :=
  let* rs := loadRows rows in
  onTable (tablewriter.AppendBulk rs) ;;
  let* hs := loadStrings headers in
  let* p := getPrinter in
  match calculateColumnAlignment p numbersColsPosition (len hs) with
  | None => panic
  | Some columnAlignment =>
      onTable (tablewriter.SetColumnAlignment columnAlignment) ;;
      onTable tablewriter.Render ;;
      askTable tablewriter.NumLines
  end.

Definition Render (headers rows : loc) (numbersColsPosition : list Z) (reset : bool)
  : M Z :=
  acquireTable ;;
  (if reset
   then onTable tablewriter.ClearHeaders ;; onTable tablewriter.ClearRows
   else ret tt) ;;
  let* hs := loadStrings headers in
  let* p := getPrinter in
  if 0 <? len hs then
    (match RowLengthTitle p with
     | Some title =>
         let* rs := loadRows rows in
         if title (len rs)
         then (* index 0 exists: len(headers) > 0 *)
              store headers
                (Strings (<[0%nat := rowLengthLabel (default "" (hs !! 0%nat)) (len rs)]> hs))
         else ret tt
     | None => ret tt
     end) ;;
    let* hs' := loadStrings headers in
    onTable (tablewriter.SetHeader hs') ;;
    renderBody headers rows numbersColsPosition
  else if negb (AllowRowsOnly p) then
    ret 0 (* if not allow to print anything without headers, then exit. *)
  else
    renderBody headers rows numbersColsPosition.

(** ** RenderRow *)

Definition RenderRow (row : list string) (numbersColsPosition : list Z) : M Z :=
  acquireTable ;;
  let* p := getPrinter in
  match calculateColumnAlignment p numbersColsPosition (len row) with
  | None => panic
  | Some columnAlignment =>
      onTable (tablewriter.SetColumnAlignment columnAlignment) ;;
      callTable (tablewriter.RenderRowOnce row)
  end.

(** ** Values handed to PrintHeadList *)

(** What [reflect.ValueOf(list)] can hold: nil, strings, integers, booleans,
    floats, structs, maps, pointers and slices (a byte slice is a slice of
    integers).  Formatting a float, and finding and formatting the cells of a
    struct or of a map, is done by code that is not at hand: such a value is
    given with the text, or the cells and their numeric flags, it is rendered
    to. *)
#[warnings="-register-all"] Inductive value :=
  | VNil
  | VString (s : string)
  | VInt (n : Z)
  | VBool (b : bool)
  | VFloat (text : string)
  | VStruct (cells : list (string * bool))
  | VMap (cells : list (string * bool))
  | VPtr (v : value)
  | VSlice (elems : list value).

Inductive Kind :=
  Invalid | KString | KInt | KBool | KFloat | KStruct | KMap | KPtr | KSlice.

Definition kindOf (v : value) : Kind :=
  match v with
  | VNil => Invalid
  | VString _ => KString
  | VInt _ => KInt
  | VBool _ => KBool
  | VFloat _ => KFloat
  | VStruct _ => KStruct
  | VMap _ => KMap
  | VPtr _ => KPtr
  | VSlice _ => KSlice
  end.

Definition Kind_eqb (a b : Kind) : bool :=
  match a, b with
  | Invalid, Invalid | KString, KString | KInt, KInt | KBool, KBool
  | KFloat, KFloat | KStruct, KStruct | KMap, KMap
  | KPtr, KPtr | KSlice, KSlice => true
  | _, _ => false
  end.

(** Modelled from the spec: [indirectValue] is defined in a file that is not
    part of the sources at hand.  Section 4.1: it "repeatedly unwraps
    pointer/optional/interface-boxing layers until reaching a concrete value
    or an explicit nil". *)
Fixpoint indirectValue (v : value) : value :=
  match v with
  | VPtr v' => indirectValue v'
  | _ => v
  end.

(** Modelled from the spec: the [StructHeader] type is declared in a file that
    is not part of the sources at hand.  Section 3: a header has "a display
    name, a numeric flag". *)
Record StructHeader := mkStructHeader {
  Name : string;
  ValueAsNumber : bool
}.

(** [var emptyHeader StructHeader]: the zero value. *)
Definition emptyHeader : StructHeader := mkStructHeader "" false.

(** Modelled from the spec: the string form of an element, as the cells of
    its row.  Sections 4.2, 4.3 and 7: a scalar gives one cell ("numbers
    formatted in their natural base-10 form, booleans as literal words"), a
    struct or a map the cells of its fields, and "unsupported/unreadable value
    shapes yield an empty row". *)
Definition stringForm (v : value) : list string :=
  match v with
  | VString s => [s]
  | VInt n => [pretty n]
  | VBool b => [if b then "true" else "false"]
  | VFloat text => [text]
  | VStruct cells | VMap cells => fst <$> cells
  | VNil | VPtr _ | VSlice _ => []
  end.

(** The positions, counted from [pos], of the cells flagged numeric. *)
Fixpoint numericFrom (pos : Z) (cells : list (string * bool)) : list Z :=
  match cells with
  | [] => []
  | (_, true) :: rest => pos :: numericFrom (pos + 1) rest
  | (_, false) :: rest => numericFrom (pos + 1) rest
  end.

(** Modelled from the spec: [extractCells] is defined in a file that is not
    part of the sources at hand.  Sections 4.2, 4.3 and 7: it yields the
    cells of the element, which are its string form, and the indices of the
    numeric ones. *)
Definition extractCells (pos : Z) (header : StructHeader) (v : value)
    (whenStructTagsOnly : bool) : list Z * list string :=
  match v with
  | VInt _ | VFloat _ => ([pos], stringForm v)
  | VStruct cells | VMap cells => (numericFrom pos cells, stringForm v)
  | _ => ([], stringForm v)
  end.

(** A caller-supplied filter: a predicate together with the one element shape
    its parameter accepts. *)
Record Filter := mkFilter {
  shape : Kind;
  test : value → bool
}.

(** Modelled from the spec: the filter engine ([MakeFilters] and the check it
    feeds) is defined in a file that is not part of the sources at hand.
    Section 4.4: the combined function "returns the result of the first
    predicate whose accepted shape matches the element's shape; if no
    predicate matches the element's shape, the element is visible by
    default". *)
Fixpoint visible (filters : list Filter) (v : value) : bool :=
  match filters with
  | [] => true
  | f :: rest =>
      if Kind_eqb (shape f) (kindOf v) then test f v else visible rest v
  end.

(** ** PrintHeadList *)

(** The loop [for i, n := 0, items.Len(); i < n; i++], with its two
    accumulators. *)
Fixpoint headListLoop (i : Z) (items : list value)
    (rows : list (list string)) (numbersColsPosition : list Z)
  : list (list string) * list Z :=
  match items with
  | [] => (rows, numbersColsPosition)
  | item :: rest =>
      let '(c, r) := extractCells i emptyHeader (indirectValue item) true in
      headListLoop (i + 1) rest (rows ++ [r]) (numbersColsPosition ++ c)
  end.

(** The [filters] argument is accepted and not used, as in the source.  The
    two slices the function builds are allocated in the store before they go
    to [Render]. *)
Definition PrintHeadList (lst : value) (header : string) (filters : list Filter)
  : M Z :=
  match indirectValue lst with
  | VSlice items =>
      let '(rows, numbersColsPosition) := headListLoop 0 items [] [] in
      let* rowsAt := alloc (Rows rows) in
      let* headersAt := alloc (Strings [header]) in
      Render headersAt rowsAt numbersColsPosition true
  | _ => ret 0
  end.

(** ** Print and PrintJSON *)

Section parsers.
(** The filter builder and the parsers live in files that are not at hand;
    they are parameters.  A parser yields the headers, the rows and the
    numeric positions that go to [Render]; [whichParser] picks one from the
    type of the value. *)
Context {RowFilters : Type}.
Context (MakeFilters : value → list Filter → RowFilters).
Context (whichParser :
           value → value → RowFilters → list string * list (list string) * list Z).
Context (JSONParser : value → RowFilters → list string * list (list string) * list Z).

(** [return p.Render(headers, rows, nums, true)] on the slices a parser has
    returned, which are new ones in the store. *)
Definition renderParsed (parsed : list string * list (list string) * list Z) : M Z :=
  let '(headers, rows, nums) := parsed in
  let* headersAt := alloc (Strings headers) in
  let* rowsAt := alloc (Rows rows) in
  Render headersAt rowsAt nums true.

(** [v.Type()] panics on the zero [reflect.Value], which is what a nil input
    is indirected to. *)
Definition Print (input : value) (filters : list Filter) : M Z :=
  let v := indirectValue input in
  let f := MakeFilters v filters in
  match kindOf v with
  | Invalid => panic
  | _ => renderParsed (whichParser v v f)
  end.

Definition PrintJSON (input : value) (filters : list Filter) : M Z :=
  let v := indirectValue input in
  let f := MakeFilters v filters in
  renderParsed (JSONParser v f).
End parsers.

(** ** Call sequences on one printer *)

(** Assignment to the exported fields of [*p] from outside the package; the
    unexported [out] and [table] are out of the caller's reach. *)
Definition assignExported (q p : Printer) : Printer :=
  mkPrinter (out p) (AutoFormatHeaders q) (AutoWrapText q) (BorderTop q) (BorderLeft q)
            (BorderRight q) (BorderBottom q) (HeaderLine q) (HeaderAlignment q)
            (RowLine q) (ColumnSeparator q) (NewLine q) (CenterSeparator q)
            (DefaultAlignment q) (NumbersAlignment q) (RowLengthTitle q)
            (AllowRowsOnly q) (table p).

(** A call to [Print] or [PrintJSON] comes with the filter builder and the
    parser it runs. *)
Inductive Call :=
  | CallRender (headers rows : loc) (numbersColsPosition : list Z) (reset : bool)
  | CallRenderRow (row : list string) (numbersColsPosition : list Z)
  | CallPrintHeadList (lst : value) (header : string) (filters : list Filter)
  | Assign (q : Printer)
  | CallPrint (RowFilters : Type) (MakeFilters : value → list Filter → RowFilters)
      (whichParser :
         value → value → RowFilters → list string * list (list string) * list Z)
      (input : value) (filters : list Filter)
  | CallPrintJSON (RowFilters : Type) (MakeFilters : value → list Filter → RowFilters)
      (JSONParser : value → RowFilters → list string * list (list string) * list Z)
      (input : value) (filters : list Filter).

Definition call (c : Call) : M unit :=
  match c with
  | CallRender h r nums reset => Render h r nums reset ;; ret tt
  | CallRenderRow row nums => RenderRow row nums ;; ret tt
  | CallPrintHeadList l h fs => PrintHeadList l h fs ;; ret tt
  | Assign q => let* p := getPrinter in putPrinter (assignExported q p)
  | CallPrint _ mk parser input fs => Print mk parser input fs ;; ret tt
  | CallPrintJSON _ mk parser input fs => PrintJSON mk parser input fs ;; ret tt
  end.

Fixpoint calls (cs : list Call) : M unit :=
  match cs with
  | [] => ret tt
  | c :: rest => call c ;; calls rest
  end.

(** ** Observations *)

(** What the printer's renderer has drawn so far (nothing, if there is no
    renderer yet). *)
Definition drawn (s : State) : list Draw :=
  match table (prn s) with
  | Some t => written t
  | None => []
  end.

(** The style the printer's fields describe, as [acquireTable] transfers it. *)
Definition styleOf (p : Printer) : Style :=
  mkStyle (DefaultAlignment p) (AutoFormatHeaders p) (AutoWrapText p)
          (mkBorder (BorderTop p) (BorderLeft p) (BorderRight p) (BorderBottom p))
          (HeaderLine p) (HeaderAlignment p) (RowLine p) (ColumnSeparator p)
          (NewLine p) (CenterSeparator p).

(** A printer fresh from [New], with the given slices in the store. *)
Definition start (p : Printer) (slices : list (loc * obj)) : State :=
  mkState p (list_to_map slices) 0.

(** The renderer the printer works on once [acquireTable] has run: the cached
    one, or a new one carrying the printer's style. *)
Definition acquired (s : State) : Table :=
  match table (prn s) with
  | Some t => t
  | None => mkTable (made s) (out (prn s)) (styleOf (prn s)) [] [] [] []
  end.

Definition heldHeaders (s : State) : list string :=
  match table (prn s) with
  | Some t => headers t
  | None => []
  end.

Definition heldRows (s : State) : list (list string) :=
  match table (prn s) with
  | Some t => lines t
  | None => []
  end.

Definition heldAlignment (s : State) : list Z :=
  match table (prn s) with
  | Some t => columnsAlign t
  | None => []
  end.

(** The renderer after the optional reset at the start of [Render]. *)
Definition cleared (reset : bool) (t : Table) : Table :=
  if reset then tablewriter.ClearRows (tablewriter.ClearHeaders t) else t.

(** The count of renderer objects once [acquireTable] has run. *)
Definition madeAfter (s : State) : nat :=
  match table (prn s) with
  | Some _ => made s
  | None => S (made s)
  end.

(** Whether the row-count policy of the printer fires for [n] rows. *)
Definition titleFires (p : Printer) (n : Z) : bool :=
  match RowLengthTitle p with
  | Some title => title n
  | None => false
  end.

(** The header list after the row-count policy has been applied for [n]
    rows: the label at index 0 gets the count appended when the list is not
    empty and the policy fires. *)
Definition retitled (p : Printer) (hs : list string) (n : Z) : list string :=
  if (0 <? len hs) && titleFires p n
  then <[0%nat := rowLengthLabel (default "" (hs !! 0%nat)) n]> hs
  else hs.

(** ** The cached renderer as an invariant *)


(** The printer holds a renderer that is the object [t0] (same identity and
    output target) with the style of [t0], and [k] renderers have been
    created in all. *)
Definition cachedAs (k : nat) (t0 : Table) (s : State) : Prop :=
  made s = k
  ∧ ∃ t : Table, table (prn s) = Some t
      ∧ ident t = ident t0 ∧ target t = target t0 ∧ style t = style t0.

(** A computation that, when it returns, has kept a property of the state. *)
Definition keeps {A} (P : State → Prop) (m : M A) : Prop :=
  ∀ (s : State) (a : A) (s' : State), P s → m s = Some (a, s') → P s'.


(** ** Example printers and states *)

(** A printer that refuses to print rows without headers. *)
Definition requireHeaders (p : Printer) : Printer :=
  mkPrinter (out p) (AutoFormatHeaders p) (AutoWrapText p) (BorderTop p) (BorderLeft p)
            (BorderRight p) (BorderBottom p) (HeaderLine p) (HeaderAlignment p)
            (RowLine p) (ColumnSeparator p) (NewLine p) (CenterSeparator p)
            (DefaultAlignment p) (NumbersAlignment p) (RowLengthTitle p)
            false (table p).


Definition demoSlices : list (loc * obj) :=
  [ (1%positive, Strings ["Name"; "Age"]);
    (2%positive, Rows [["a"; "3"]; ["b"; "30"]]);
    (3%positive, Strings []);
    (4%positive, Rows [["a"; "3"]; ["b"; "30"]; ["c"; "7"]; ["d"; "12"]]);
    (5%positive, Strings ["Name"; "Age"]) ].

Definition demo : State := start (New Default Stdout) demoSlices.

(** A store in which the four rows handed to [Render] are the headers slice
    itself: [rows := [][]string{h, h, h, h}]. *)
Definition sharedSlices : list (loc * obj) :=
  [ (1%positive, Strings ["Name"; "Age"]);
    (2%positive, RowViews [whole 1 2; whole 1 2; whole 1 2; whole 1 2]) ].

Definition shared : State := start (New Default Stdout) sharedSlices.

Definition demoStrict : State := start (requireHeaders (New Default Stdout)) demoSlices.

(** A filter [func(s string) bool { return false }]: it hides every string. *)
Definition hideStrings : Filter := mkFilter KString (λ _, false).

(** A printer fresh from [New(os.Stdout)] and an empty store. *)
Definition blank : State := start (New Default Stdout) [].

(** ** Package-level functions *)

(** [Render(w, ...)] is [New(w).Render(...)] and [PrintHeadList(w, ...)] is
    [New(w).PrintHeadList(...)]: the receiver is a new printer for [w], built
    from the value [dflt] the package variable [Default] has at the call; the
    store and the count of renderers are the caller's.  The final state holds
    that printer, to tell what it drew on [w]. *)
Module tableprinter.
Definition Render (dflt : Printer) (w : Writer) (headers rows : loc)
    (numbersColsPosition : list Z) (reset : bool) : M Z :=
  λ s, Render headers rows numbersColsPosition reset
         (mkState (New dflt w) (mem s) (made s)).

Definition PrintHeadList (dflt : Printer) (w : Writer) (lst : value) (header : string)
    (filters : list Filter) : M Z :=
  λ s, PrintHeadList lst header filters (mkState (New dflt w) (mem s) (made s)).
End tableprinter.

(** The calls that are method calls, not assignments to the fields. *)
Definition isMethod (c : Call) : bool :=
  match c with
  | Assign _ => false
  | _ => true
  end.

(** The printer of the state is [p0] up to its renderer pointer: every field
    a caller can set, and [out], are those of [p0]. *)
Definition configuredAs (p0 : Printer) (s : State) : Prop :=
  ∃ t : option Table, prn s = setTable t p0.

(** A state after a first [Render] of the demo table. *)
Definition demoRendered : State :=
  match Render 1 2 [1] true demo with
  | Some (_, s) => s
  | None => demo
  end.

(** A stand-in filter builder and parser, to run [Print] on. *)
Definition noRowFilters (v : value) (filters : list Filter) : unit := tt.

Definition demoParser (v : value) (f : unit)
  : list string * list (list string) * list Z :=
  (["Name"; "Age"], [["a"; "3"]; ["b"; "30"]], [1]).

(** * Properties *)

(** ** Column alignment *)

Section alignment_facts.
Context (p : Printer).

Lemma scanPositions_elem (i cell : Z) (nums : list Z) :
  scanPositions p i cell nums
  = if decide (i ∈ nums) then NumbersAlignment p else cell.
Proof.
  induction nums as [|j rest IH]; cbn [scanPositions].
  - rewrite decide_False; [done | apply not_elem_of_nil].
  - destruct (Z.eqb_spec i j) as [->|Hne].
    + rewrite decide_True; [done | apply list_elem_of_here].
    + rewrite IH. destruct (decide (i ∈ rest)) as [Hin|Hnin].
      * rewrite decide_True; [done | by apply list_elem_of_further].
      * rewrite decide_False; [done | by apply not_elem_of_cons].
Qed.

(** Filling a slice in place, index by index, gives the cell function
    mapped over the indices. *)
Lemma fill_prefix {A} (f : nat → A) (l : list A) (k : nat) :
  (k ≤ length l)%nat →
  foldl (λ acc i, <[i := f i]> acc) l (seq 0 k) = (f <$> seq 0 k) ++ drop k l.
Proof.
  induction k as [|k IH]; intros Hk; [done|].
  rewrite seq_S, foldl_app, IH by lia. simpl.
  rewrite fmap_app. simpl.
  destruct (drop k l) as [|x rest] eqn:Hd.
  { apply (f_equal length) in Hd. rewrite length_drop in Hd. simpl in Hd. lia. }
  assert (drop (S k) l = rest) as ->.
  { replace (S k) with (k + 1)%nat by lia. by rewrite <- drop_drop, Hd. }
  rewrite insert_app_r_alt; rewrite length_fmap, length_seq; [|lia].
  rewrite Nat.sub_diag. simpl. by rewrite <- app_assoc.
Qed.

Lemma calculateColumnAlignment_map (nums : list Z) (n : nat) :
  calculateColumnAlignment p nums (Z.of_nat n) = Some (alignCell p nums <$> seq 0 n).
Proof.
  unfold calculateColumnAlignment.
  destruct (Z.ltb_spec (Z.of_nat n) 0) as [?|_]; [lia|].
  rewrite Nat2Z.id, fill_prefix by (by rewrite length_replicate).
  rewrite drop_ge by (by rewrite length_replicate).
  by rewrite app_nil_r.
Qed.

(** A negative size cannot come from [len]; [make] would panic on it. *)
Lemma calculateColumnAlignment_negative (nums : list Z) (size : Z) :
  size < 0 → calculateColumnAlignment p nums size = None.
Proof.
  intros Hneg. unfold calculateColumnAlignment.
  by destruct (Z.ltb_spec size 0) as [_|?]; [|lia].
Qed.

Lemma calculateColumnAlignment_len {A} (nums : list Z) (l : list A) :
  calculateColumnAlignment p nums (len l) = Some (alignCell p nums <$> seq 0 (length l)).
Proof. apply calculateColumnAlignment_map. Qed.

Lemma alignCell_elem (nums : list Z) (i : nat) :
  alignCell p nums i
  = if decide (Z.of_nat i ∈ nums) then NumbersAlignment p else DefaultAlignment p.
Proof. apply scanPositions_elem. Qed.

Lemma alignCell_same_set (nums nums' : list Z) (i : nat) :
  (∀ j, j ∈ nums ↔ j ∈ nums') → alignCell p nums i = alignCell p nums' i.
Proof.
  intros Hset. rewrite !alignCell_elem.
  destruct (decide (Z.of_nat i ∈ nums)) as [Hin|Hnin].
  - rewrite decide_True; [done | by apply Hset].
  - rewrite decide_False; [done | by rewrite <- Hset].
Qed.
End alignment_facts.

(** C3: for every printer, every size n (a slice length) and every list of
    numeric column positions, calculateColumnAlignment returns a list of
    exactly n alignments; position i holds the printer's NumbersAlignment if i
    occurs in the positions and its DefaultAlignment otherwise; two position
    lists with the same elements (whatever their order and repetitions) give
    the same result. *)
Theorem calculateColumnAlignment_by_membership
    (p : Printer) (n : nat) (nums : list Z) :
  ∃ l : list Z,
    calculateColumnAlignment p nums (Z.of_nat n) = Some l
    ∧ length l = n
    ∧ (∀ i : nat, (i < n)%nat →
         l !! i = Some (if decide (Z.of_nat i ∈ nums)
                        then NumbersAlignment p else DefaultAlignment p))
    ∧ (∀ nums' : list Z, (∀ j, j ∈ nums ↔ j ∈ nums') →
         calculateColumnAlignment p nums' (Z.of_nat n) = Some l).
Proof.
  exists (alignCell p nums <$> seq 0 n). split_and!.
  - apply calculateColumnAlignment_map.
  - by rewrite length_fmap, length_seq.
  - intros i Hi. rewrite list_lookup_fmap, lookup_seq_lt by done. simpl.
    by rewrite alignCell_elem.
  - intros nums' Hset. rewrite calculateColumnAlignment_map. f_equal.
    apply list_fmap_ext. intros _ i _. symmetry. by apply alignCell_same_set.
Qed.

(** ** Symbolic execution of the printer's methods *)

Lemma acquireTable_run (s : State) :
  acquireTable s
  = Some (tt, mkState (setTable (Some (acquired s)) (prn s)) (mem s) (madeAfter s)).
Proof.
  destruct s as [p m k]. destruct p as [? ? ? ? ? ? ? ? ? ? ? ? ? ? ? ? ? [t|]]; reflexivity.
Qed.

(** Unfolds the monad so that [simpl] can run a method on a state. *)
Ltac exec :=
  unfold renderBody, callTable, onTable, askTable, loadStrings, loadRows, store,
    getPrinter, putPrinter, bind, ret, panic.

(** The early exit: no headers, and rows alone are not allowed. *)
Lemma Render_refuses (s : State) (h r : loc) (nums : list Z) (reset : bool) :
  mem s !! h = Some (Strings []) →
  AllowRowsOnly (prn s) = false →
  Render h r nums reset s
  = Some (0, mkState (setTable (Some (cleared reset (acquired s))) (prn s))
                     (mem s) (madeAfter s)).
Proof.
  intros Hh Hno. unfold Render, bind at 1. rewrite acquireTable_run. exec.
  destruct reset; simpl; rewrite Hh; simpl; rewrite Hno; reflexivity.
Qed.

Lemma len_pos {A} (l : list A) : (0 <? len l) = true ↔ l ≠ [].
Proof.
  unfold len. destruct l; simpl; [|split; [done | intros _; apply Z.ltb_lt; lia]].
  split; [discriminate | done].
Qed.

Lemma retitled_length (p : Printer) (hs : list string) (n : Z) :
  length (retitled p hs n) = length hs.
Proof. unfold retitled. case_match; [apply length_insert | done]. Qed.

(** The drawing path, for rows of any kind: the headers are set (when there
    are any), the rows are read again after the write to the headers slice
    and appended, the alignment is computed for as many columns as there are
    headers, and the table is drawn. *)
Lemma Render_runs (s : State) (h r : loc) (nums : list Z) (reset : bool)
    (hs : list string) (rs rs' : list (list string)) :
  mem s !! h = Some (Strings hs) →
  rowsAt (mem s) r = Some rs →
  rowsAt (if (0 <? len hs) && titleFires (prn s) (len rs)
          then <[h := Strings (retitled (prn s) hs (len rs))]> (mem s)
          else mem s) r = Some rs' →
  hs ≠ [] ∨ AllowRowsOnly (prn s) = true →
  let t := cleared reset (acquired s) in
  let hs' := retitled (prn s) hs (len rs) in
  let shown := if 0 <? len hs then hs' else headers t in
  let al := alignCell (prn s) nums <$> seq 0 (length hs) in
  Render h r nums reset s
  = Some (len (lines t ++ rs'),
          mkState
            (setTable
               (Some (mkTable (ident t) (target t) (style t) shown (lines t ++ rs') al
                              (written t ++ [DrawTable shown (lines t ++ rs') al])))
               (prn s))
            (if (0 <? len hs) && titleFires (prn s) (len rs)
             then <[h := Strings hs']> (mem s) else mem s)
            (madeAfter s)).
Proof.
  intros Hh Hr Hr' Hgo t hs' shown al.
  assert ((0 <? len hs) = false → AllowRowsOnly (prn s) = true) as Hrows.
  { intros Hlen. destruct Hgo as [Hne|?]; [apply len_pos in Hne; congruence | done]. }
  revert Hr'. unfold Render, bind at 1. rewrite acquireTable_run.
  subst shown hs' t. unfold retitled, titleFires, cleared. exec.
  destruct reset; simpl; rewrite Hh; simpl.
  all: destruct (0 <? len hs) eqn:Hlen; simpl.
  all: try (destruct (RowLengthTitle (prn s)) as [title|]; simpl;
            [rewrite Hr; simpl; destruct (title (len rs)); simpl|]).
  all: intros Hr'; try (injection Hr' as <-).
  all: try rewrite Hrows by done.
  all: repeat first
         [ rewrite lookup_insert_eq | rewrite Hr' | rewrite Hr
         | rewrite Hh | rewrite calculateColumnAlignment_len
         | progress simpl ].
  all: rewrite ?length_insert; reflexivity.
Qed.

Lemma rowsAt_Rows (m : gmap loc obj) (r : loc) (rs : list (list string)) :
  m !! r = Some (Rows rs) → rowsAt m r = Some rs.
Proof. intros Hr. unfold rowsAt. by rewrite Hr. Qed.

(** The drawing path for rows that have backing arrays of their own. *)
Lemma Render_draws (s : State) (h r : loc) (nums : list Z) (reset : bool)
    (hs : list string) (rs : list (list string)) :
  mem s !! h = Some (Strings hs) →
  mem s !! r = Some (Rows rs) →
  hs ≠ [] ∨ AllowRowsOnly (prn s) = true →
  let t := cleared reset (acquired s) in
  let hs' := retitled (prn s) hs (len rs) in
  let shown := if 0 <? len hs then hs' else headers t in
  let al := alignCell (prn s) nums <$> seq 0 (length hs) in
  Render h r nums reset s
  = Some (len (lines t ++ rs),
          mkState
            (setTable
               (Some (mkTable (ident t) (target t) (style t) shown (lines t ++ rs) al
                              (written t ++ [DrawTable shown (lines t ++ rs) al])))
               (prn s))
            (if (0 <? len hs) && titleFires (prn s) (len rs)
             then <[h := Strings hs']> (mem s) else mem s)
            (madeAfter s)).
Proof.
  intros Hh Hr Hgo.
  assert (h ≠ r) as Hhr by (intros ->; congruence).
  apply Render_runs; [done | by apply rowsAt_Rows | | done].
  apply rowsAt_Rows. case_match; [by rewrite lookup_insert_ne | done].
Qed.

(** ** Rows that share a backing array *)

Lemma resolve_insert_ne (m : gmap loc obj) (h : loc) (o : obj) (v : View) :
  base v ≠ h → resolve (<[h := o]> m) v = resolve m v.
Proof. intros Hne. unfold resolve. by rewrite lookup_insert_ne. Qed.

(** Overwriting cells of a backing array keeps every view readable. *)
Lemma resolve_insert_Some (m : gmap loc obj) (h : loc) (hs hs' : list string)
    (v : View) (x : list string) :
  m !! h = Some (Strings hs) →
  length hs' = length hs →
  resolve m v = Some x →
  ∃ x', resolve (<[h := Strings hs']> m) v = Some x'.
Proof.
  intros Hh Hlen Hv. destruct (decide (base v = h)) as [Heq|Hne].
  - unfold resolve in *. rewrite Heq in *. rewrite lookup_insert_eq. rewrite Hh in Hv.
    rewrite Hlen. destruct (decide (from v + count v ≤ length hs)%nat); [eauto|done].
  - rewrite resolve_insert_ne by done. eauto.
Qed.

Lemma mapM_resolve_insert (m : gmap loc obj) (h : loc) (hs hs' : list string)
    (vs : list View) (rs : list (list string)) :
  m !! h = Some (Strings hs) →
  length hs' = length hs →
  mapM (resolve m) vs = Some rs →
  ∃ rs', mapM (resolve (<[h := Strings hs']> m)) vs = Some rs'
         ∧ length rs' = length rs
         ∧ ∀ (i : nat) (v : View), vs !! i = Some v → base v ≠ h → rs' !! i = rs !! i.
Proof.
  intros Hh Hlen. revert rs. induction vs as [|v vs IH]; intros rs Hrs.
  - injection Hrs as <-. exists []. done.
  - simpl in Hrs. destruct (resolve m v) as [x|] eqn:Hv; [|done]. simpl in Hrs.
    destruct (mapM (resolve m) vs) as [xs|] eqn:Hvs; [|done].
    injection Hrs as <-.
    destruct (IH xs eq_refl) as (xs' & Hxs' & Hlen' & Hsame).
    destruct (resolve_insert_Some m h hs hs' v x Hh Hlen Hv) as [x' Hx'].
    exists (x' :: xs'). simpl. rewrite Hx'. simpl. rewrite Hxs'. simpl.
    split; [done|]. split; [by rewrite Hlen'|].
    intros [|i] w Hw Hne; simpl in *.
    + injection Hw as <-. rewrite resolve_insert_ne in Hx' by done. congruence.
    + by apply (Hsame i w).
Qed.

(** The rows read after the write of [Render] to the headers slice: as
    many as before; those with a backing array of their own, and those that
    are views of an array other than the headers', read as before. *)
Lemma rowsAt_after_write (m : gmap loc obj) (h r : loc) (hs hs' : list string)
    (rs : list (list string)) (fires : bool) :
  m !! h = Some (Strings hs) →
  length hs' = length hs →
  rowsAt m r = Some rs →
  ∃ rs', rowsAt (if fires then <[h := Strings hs']> m else m) r = Some rs'
         ∧ length rs' = length rs
         ∧ (∀ xss, m !! r = Some (Rows xss) → rs' = rs)
         ∧ (∀ vs (i : nat) (v : View), m !! r = Some (RowViews vs) →
              vs !! i = Some v → base v ≠ h → rs' !! i = rs !! i).
Proof.
  intros Hh Hlen Hr. destruct fires; [|by exists rs].
  assert (h ≠ r) as Hhr.
  { intros ->. unfold rowsAt in Hr. by rewrite Hh in Hr. }
  unfold rowsAt in *. rewrite lookup_insert_ne by done.
  destruct (m !! r) as [[xs|xss|vs]|] eqn:Hobj; try done.
  - exists rs. split_and!; try done.
  - destruct (mapM_resolve_insert m h hs hs' vs rs Hh Hlen Hr) as (rs' & Hrs' & Hl & Hsame).
    exists rs'. split_and!; try done.
    intros vs' i v [= <-]. apply Hsame.
Qed.

(** With its slices in the store, [Render] returns, and the only store cell
    it may have written is the headers slice. *)
Lemma Render_store (s : State) (h r : loc) (nums : list Z) (reset : bool)
    (hs : list string) (rs : list (list string)) :
  mem s !! h = Some (Strings hs) →
  rowsAt (mem s) r = Some rs →
  ∃ (n : Z) (s' : State),
    Render h r nums reset s = Some (n, s')
    ∧ mem s' = (if (0 <? len hs) && titleFires (prn s) (len rs)
                then <[h := Strings (retitled (prn s) hs (len rs))]> (mem s)
                else mem s).
Proof.
  intros Hh Hr.
  destruct (rowsAt_after_write (mem s) h r hs (retitled (prn s) hs (len rs)) rs
              ((0 <? len hs) && titleFires (prn s) (len rs)) Hh
              (retitled_length _ _ _) Hr) as (rs' & Hr' & _).
  destruct (decide (hs ≠ [] ∨ AllowRowsOnly (prn s) = true)) as [Hgo|Hno].
  - pose proof (Render_runs s h r nums reset hs rs rs' Hh Hr Hr' Hgo) as Hrun.
    simpl in Hrun. rewrite Hrun. eauto.
  - assert (hs = [] ∧ AllowRowsOnly (prn s) = false) as [-> Hfalse].
    { destruct hs, (AllowRowsOnly (prn s)); try done; exfalso; apply Hno; auto. }
    rewrite Render_refuses by done. simpl. eauto.
Qed.

(** ** The zero-headers exit *)

(** C1: a call to Render whose headers list is empty, on a printer whose
    AllowRowsOnly flag is false, returns 0; nothing is drawn, the rows are not
    appended to the table (which holds no rows after a reset and its previous
    rows otherwise), and the store is left as it was.  The call returns
    normally: it is not a failure. *)
Theorem Render_without_headers_prints_nothing
    (s : State) (h r : loc) (nums : list Z) (reset : bool) :
  mem s !! h = Some (Strings []) →
  AllowRowsOnly (prn s) = false →
  ∃ s' : State,
    Render h r nums reset s = Some (0, s')
    ∧ drawn s' = drawn s
    ∧ heldRows s' = (if reset then [] else heldRows s)
    ∧ mem s' = mem s.
Proof.
  intros Hh Hno. eexists. split; [by apply Render_refuses|].
  unfold drawn, heldRows, acquired. simpl.
  destruct reset, (table (prn s)); done.
Qed.

Lemma Render_without_headers_prints_nothing_witness :
  mem demoStrict !! 3%positive = Some (Strings [])
  ∧ AllowRowsOnly (prn demoStrict) = false
  ∧ ∃ s' : State,
      Render 3 2 [1] true demoStrict = Some (0, s')
      ∧ drawn s' = drawn demoStrict
      ∧ heldRows s' = []
      ∧ mem s' = mem demoStrict.
Proof.
  split; [vm_compute; reflexivity|]. split; [reflexivity|].
  apply (Render_without_headers_prints_nothing demoStrict 3 2 [1] true);
    [vm_compute; reflexivity | reflexivity].
Defined.

(** ** The row-count label *)

Lemma retitled_cons (p : Printer) (h0 : string) (tl : list string) (n : Z) :
  retitled p (h0 :: tl) n
  = (if titleFires p n then rowLengthLabel h0 n else h0) :: tl.
Proof.
  unfold retitled. replace (0 <? len (h0 :: tl)) with true; [|symmetry; by apply len_pos].
  simpl. by destruct (titleFires p n).
Qed.

(** C4 (as amended): in a Render call with a non-empty headers list, if
    RowLengthTitle is non-nil and returns true for the number of rows N, the
    renderer receives the first label followed by " (N) " (the suffix appears
    once) and every other header as given; if RowLengthTitle is nil or returns
    false, it receives the headers unchanged.  The renderer receives as many
    rows as were given, after the rows it already holds (none after a reset),
    and the table drawn is made of these headers and rows.  The rewrite
    changes no content of a row that has a backing array of its own or is a
    view of an array other than the headers'; a row that shares the headers'
    backing array is read after the rewrite. *)
Theorem Render_row_count_label
    (s : State) (h r : loc) (nums : list Z) (reset : bool)
    (h0 : string) (tl : list string) (rs : list (list string)) :
  mem s !! h = Some (Strings (h0 :: tl)) →
  rowsAt (mem s) r = Some rs →
  ∃ (n : Z) (s' : State) (rs' : list (list string)),
    Render h r nums reset s = Some (n, s')
    ∧ heldHeaders s'
      = match RowLengthTitle (prn s) with
        | Some title =>
            if title (len rs)
            then (h0 +:+ " (" +:+ pretty (len rs) +:+ ") ") :: tl
            else h0 :: tl
        | None => h0 :: tl
        end
    ∧ heldRows s' = (if reset then [] else heldRows s) ++ rs'
    ∧ rowsAt (mem s') r = Some rs'
    ∧ length rs' = length rs
    ∧ (∀ xss, mem s !! r = Some (Rows xss) → rs' = rs)
    ∧ (∀ vs (i : nat) (v : View), mem s !! r = Some (RowViews vs) →
         vs !! i = Some v → base v ≠ h → rs' !! i = rs !! i)
    ∧ drawn s'
      = drawn s ++ [DrawTable (heldHeaders s') (heldRows s') (heldAlignment s')].
Proof.
  intros Hh Hr.
  destruct (rowsAt_after_write (mem s) h r _ (retitled (prn s) (h0 :: tl) (len rs)) rs
              ((0 <? len (h0 :: tl)) && titleFires (prn s) (len rs)) Hh
              (retitled_length _ _ _) Hr) as (rs' & Hr' & Hlen & Hown & Hviews).
  pose proof (Render_runs s h r nums reset _ rs rs' Hh Hr Hr') as Hrun.
  simpl in Hrun. rewrite Hrun by (by left). clear Hrun.
  eexists _, _, rs'. split; [reflexivity|].
  unfold heldHeaders, heldRows, heldAlignment, drawn. simpl.
  split_and!; [| | exact Hr' | exact Hlen | exact Hown | exact Hviews |].
  - replace (0 <? len (h0 :: tl)) with true by (symmetry; by apply len_pos).
    rewrite retitled_cons. unfold titleFires, rowLengthLabel.
    destruct (RowLengthTitle (prn s)) as [title|]; [destruct (title (len rs))|]; done.
  - unfold cleared, acquired. destruct reset, (table (prn s)); done.
  - unfold cleared, acquired. destruct reset, (table (prn s)); done.
Qed.

Lemma Render_row_count_label_witness :
  mem demo !! 1%positive = Some (Strings ["Name"; "Age"])
  ∧ rowsAt (mem demo) 4
    = Some [["a"; "3"]; ["b"; "30"]; ["c"; "7"]; ["d"; "12"]]
  ∧ ∃ (n : Z) (s' : State) (rs' : list (list string)),
      Render 1 4 [1] true demo = Some (n, s')
      ∧ heldHeaders s' = ["Name (4) "; "Age"]
      ∧ heldRows s' = [] ++ rs'
      ∧ rowsAt (mem s') 4 = Some rs'
      ∧ length rs' = 4%nat
      ∧ (∀ xss, mem demo !! 4%positive = Some (Rows xss) →
           rs' = [["a"; "3"]; ["b"; "30"]; ["c"; "7"]; ["d"; "12"]])
      ∧ (∀ vs (i : nat) (v : View), mem demo !! 4%positive = Some (RowViews vs) →
           vs !! i = Some v → base v ≠ 1%positive →
           rs' !! i = [["a"; "3"]; ["b"; "30"]; ["c"; "7"]; ["d"; "12"]] !! i)
      ∧ drawn s'
        = drawn demo ++ [DrawTable (heldHeaders s') (heldRows s') (heldAlignment s')].
Proof.
  split; [vm_compute; reflexivity|]. split; [vm_compute; reflexivity|].
  apply (Render_row_count_label demo 1 4 [1] true "Name" ["Age"]
           [["a"; "3"]; ["b"; "30"]; ["c"; "7"]; ["d"; "12"]]);
    vm_compute; reflexivity.
Defined.

(** C4, the claim as stated fails when rows share the headers' backing
    array: with [rows := [][]string{h, h, h, h}] the policy fires for the
    four rows, the label is rewritten in the array, and every row the
    renderer receives starts with the rewritten label, not with the label
    the rows held when Render was called. *)
Lemma Render_row_content_counterexample :
  ∃ (n : Z) (s' : State),
    rowsAt (mem shared) 2
    = Some [["Name"; "Age"]; ["Name"; "Age"]; ["Name"; "Age"]; ["Name"; "Age"]]
    ∧ Render 1 2 [] true shared = Some (n, s')
    ∧ heldRows s'
      = [["Name (4) "; "Age"]; ["Name (4) "; "Age"];
         ["Name (4) "; "Age"]; ["Name (4) "; "Age"]]
    ∧ heldRows s'
      ≠ [["Name"; "Age"]; ["Name"; "Age"]; ["Name"; "Age"]; ["Name"; "Age"]].
Proof.
  do 2 eexists. split; [vm_compute; reflexivity|].
  split; [vm_compute; reflexivity|]. split; [vm_compute; reflexivity|].
  vm_compute. discriminate.
Qed.

(** ** Render as a whole *)

(** With its two slices in the store, [Render] returns: zero on the early
    exit, the number of rows the renderer holds otherwise.  The only store
    cell it may write is the headers slice. *)
Lemma Render_total (s : State) (h r : loc) (nums : list Z) (reset : bool)
    (hs : list string) (rs : list (list string)) :
  mem s !! h = Some (Strings hs) →
  mem s !! r = Some (Rows rs) →
  ∃ (s' : State) (t' : Table),
    Render h r nums reset s
    = Some (if negb (0 <? len hs) && negb (AllowRowsOnly (prn s))
            then 0 else len (lines (cleared reset (acquired s)) ++ rs), s')
    ∧ prn s' = setTable (Some t') (prn s)
    ∧ mem s' = (if (0 <? len hs) && titleFires (prn s) (len rs)
                then <[h := Strings (retitled (prn s) hs (len rs))]> (mem s)
                else mem s).
Proof.
  intros Hh Hr.
  destruct (0 <? len hs) eqn:Hlen; [|destruct (AllowRowsOnly (prn s)) eqn:Hallow]; simpl.
  - pose proof (Render_draws s h r nums reset _ _ Hh Hr) as Hrun. simpl in Hrun.
    rewrite Hrun by (left; by apply len_pos). rewrite Hlen. simpl. eauto.
  - pose proof (Render_draws s h r nums reset _ _ Hh Hr) as Hrun. simpl in Hrun.
    rewrite Hrun by (by right). rewrite Hlen. simpl. eauto.
  - assert (hs = []) as ->.
    { destruct hs; [done|]. by rewrite (proj2 (len_pos (_ :: _))) in Hlen. }
    rewrite Render_refuses by done. eauto.
Qed.

(** C9 (as amended): with its slices in the store, Render returns, and
    when the row-count policy fires (RowLengthTitle non-nil and true for the
    number of rows N) the caller's headers slice holds, after the call, the
    first label followed by " (N) " at index 0 and its other labels as before.
    Render writes nothing else: the rows slice and every store cell other
    than the headers' backing array are as before the call, whether the
    policy fires or not; so a row with a backing array of its own, or a view
    of another array, reads as before, while a row that shares the headers'
    backing array is read with the rewritten label. *)
Theorem Render_writes_through_headers
    (s : State) (h r : loc) (nums : list Z) (reset : bool)
    (hs : list string) (rs : list (list string)) :
  mem s !! h = Some (Strings hs) →
  rowsAt (mem s) r = Some rs →
  ∃ (n : Z) (s' : State) (rs' : list (list string)),
    Render h r nums reset s = Some (n, s')
    ∧ (∀ (title : Z → bool) (h0 : string) (tl : list string),
         hs = h0 :: tl →
         RowLengthTitle (prn s) = Some title →
         title (len rs) = true →
         mem s' !! h = Some (Strings ((h0 +:+ " (" +:+ pretty (len rs) +:+ ") ") :: tl)))
    ∧ (∀ l : loc, l ≠ h → mem s' !! l = mem s !! l)
    ∧ mem s' !! r = mem s !! r
    ∧ rowsAt (mem s') r = Some rs'
    ∧ length rs' = length rs
    ∧ (∀ xss, mem s !! r = Some (Rows xss) → rs' = rs)
    ∧ (∀ vs (i : nat) (v : View), mem s !! r = Some (RowViews vs) →
         vs !! i = Some v → base v ≠ h → rs' !! i = rs !! i).
Proof.
  intros Hh Hr.
  assert (r ≠ h) as Hrh.
  { intros ->. unfold rowsAt in Hr. by rewrite Hh in Hr. }
  destruct (Render_store s h r nums reset hs rs Hh Hr) as (n & s' & -> & Hmem).
  destruct (rowsAt_after_write (mem s) h r hs (retitled (prn s) hs (len rs)) rs
              ((0 <? len hs) && titleFires (prn s) (len rs)) Hh
              (retitled_length _ _ _) Hr) as (rs' & Hr' & Hlen & Hown & Hviews).
  rewrite <- Hmem in Hr'.
  eexists _, _, rs'. split; [reflexivity|].
  assert (∀ l : loc, l ≠ h → mem s' !! l = mem s !! l) as Hframe.
  { intros l Hl. rewrite Hmem. case_match; [by rewrite lookup_insert_ne|done]. }
  split_and!; try done; [|by apply Hframe].
  intros title h0 tl -> Htitle Hfires. rewrite Hmem.
  replace (0 <? len (h0 :: tl)) with true by (symmetry; by apply len_pos).
  unfold titleFires. rewrite Htitle, Hfires. simpl.
  rewrite lookup_insert_eq, retitled_cons. unfold titleFires.
  by rewrite Htitle, Hfires.
Qed.

Lemma Render_writes_through_headers_witness :
  ∃ (n : Z) (s' : State),
    Render 1 4 [1] true demo = Some (n, s')
    ∧ mem s' !! 1%positive = Some (Strings ["Name (4) "; "Age"])
    ∧ mem s' !! 4%positive = mem demo !! 4%positive
    ∧ mem s' !! 5%positive = mem demo !! 5%positive
    ∧ rowsAt (mem s') 4 = Some [["a"; "3"]; ["b"; "30"]; ["c"; "7"]; ["d"; "12"]].
Proof.
  destruct (Render_writes_through_headers demo 1 4 [1] true ["Name"; "Age"]
              [["a"; "3"]; ["b"; "30"]; ["c"; "7"]; ["d"; "12"]])
    as (n & s' & rs' & Hrun & Hfirst & Hframe & Hrows & Hread & _ & Hown & _);
    [vm_compute; reflexivity | vm_compute; reflexivity |].
  exists n, s'. split; [exact Hrun|]. split.
  - apply (Hfirst (λ rowsLength, 3 <? rowsLength) "Name" ["Age"]); reflexivity.
  - split; [exact Hrows|]. split; [apply Hframe; discriminate|].
    rewrite Hread. f_equal. apply (Hown [["a"; "3"]; ["b"; "30"]; ["c"; "7"]; ["d"; "12"]]).
    vm_compute; reflexivity.
Defined.

(** C9, the claim as stated fails when rows share the headers' backing
    array: with [rows := [][]string{h, h, h, h}] the rows argument reads
    differently after the call, although Render has written through the
    headers slice only. *)
Lemma Render_rows_frame_counterexample :
  ∃ (n : Z) (s' : State),
    Render 1 2 [] true shared = Some (n, s')
    ∧ rowsAt (mem shared) 2
      = Some [["Name"; "Age"]; ["Name"; "Age"]; ["Name"; "Age"]; ["Name"; "Age"]]
    ∧ rowsAt (mem s') 2
      = Some [["Name (4) "; "Age"]; ["Name (4) "; "Age"];
              ["Name (4) "; "Age"]; ["Name (4) "; "Age"]]
    ∧ rowsAt (mem s') 2 ≠ rowsAt (mem shared) 2.
Proof.
  do 2 eexists. split; [vm_compute; reflexivity|].
  split; [vm_compute; reflexivity|]. split; [vm_compute; reflexivity|].
  vm_compute. discriminate.
Qed.

(** ** Two renders in a row *)

(** C5: after a Render with reset=true, a second Render with reset=true on
    the same printer, given slices with the same headers, rows and numeric
    positions as the first call was given, returns the same line count as
    the first; so does a second call that is handed the very slices of the
    first call, whose first label the first call may have rewritten. *)
Theorem Render_reset_same_count
    (s : State) (h r : loc) (nums : list Z)
    (hs : list string) (rs : list (list string)) :
  mem s !! h = Some (Strings hs) →
  mem s !! r = Some (Rows rs) →
  ∃ (n : Z) (s1 : State),
    Render h r nums true s = Some (n, s1)
    ∧ (∀ h2 r2 : loc,
         mem s1 !! h2 = Some (Strings hs) →
         mem s1 !! r2 = Some (Rows rs) →
         ∃ s2 : State, Render h2 r2 nums true s1 = Some (n, s2))
    ∧ (∃ s2 : State, Render h r nums true s1 = Some (n, s2)).
Proof.
  intros Hh Hr.
  assert (r ≠ h) as Hrh by (intros ->; congruence).
  destruct (Render_total s h r nums true hs rs Hh Hr) as (s1 & t1 & -> & Hprn & Hmem).
  do 2 eexists. split; [reflexivity|]. simpl. split.
  - intros h2 r2 Hh2 Hr2.
    destruct (Render_total s1 h2 r2 nums true hs rs Hh2 Hr2) as (s2 & t2 & -> & _ & _).
    exists s2. by rewrite Hprn.
  - assert (∃ hs1, mem s1 !! h = Some (Strings hs1) ∧ length hs1 = length hs)
      as (hs1 & Hh1 & Hlen1).
    { rewrite Hmem. case_match.
      - eexists. rewrite lookup_insert_eq. split; [done | apply retitled_length].
      - eauto. }
    assert (mem s1 !! r = Some (Rows rs)) as Hr1.
    { rewrite Hmem. case_match; [by rewrite lookup_insert_ne|done]. }
    destruct (Render_total s1 h r nums true hs1 rs Hh1 Hr1) as (s2 & t2 & -> & _ & _).
    exists s2. rewrite Hprn. unfold len. by rewrite Hlen1.
Qed.

Lemma Render_reset_same_count_witness :
  ∃ (n : Z) (s1 : State),
    Render 1 4 [1] true demo = Some (n, s1)
    ∧ (∃ s2 : State, Render 5 4 [1] true s1 = Some (n, s2))
    ∧ (∃ s2 : State, Render 1 4 [1] true s1 = Some (n, s2)).
Proof.
  destruct (Render_reset_same_count demo 1 4 [1] ["Name"; "Age"]
              [["a"; "3"]; ["b"; "30"]; ["c"; "7"]; ["d"; "12"]])
    as (n & s1 & Hrun & Hcopy & Hsame);
    [vm_compute; reflexivity | vm_compute; reflexivity |].
  exists n, s1. split; [exact Hrun|]. split; [|exact Hsame].
  vm_compute in Hrun. injection Hrun as _ <-.
  apply Hcopy; vm_compute; reflexivity.
Defined.

(** ** Totality of the alignment computation *)

Lemma alignCell_in_range (p : Printer) (nums : list Z) (n i : nat) :
  (i < n)%nat →
  alignCell p (filter (λ j, 0 ≤ j < Z.of_nat n) nums) i = alignCell p nums i.
Proof.
  intros Hi. rewrite !alignCell_elem.
  destruct (decide (Z.of_nat i ∈ nums)) as [Hin|Hnin].
  - rewrite decide_True; [done|]. apply list_elem_of_filter. split; [lia | done].
  - rewrite decide_False; [done|]. intros [_ ?]%list_elem_of_filter. done.
Qed.

(** C10: calculateColumnAlignment never fails on a size that is a slice
    length: whatever the positions list (duplicates, negative or too large
    indices included) it returns exactly size entries, and the entries are the
    ones it returns when the positions outside [0, size) are dropped.  Render
    sizes the list by the header count: with an empty headers list and
    AllowRowsOnly true the rows are drawn with an empty alignment list, and
    the call gives the same result whatever the numeric positions are. *)
Theorem calculateColumnAlignment_total :
  (∀ (p : Printer) (n : nat) (nums : list Z),
     ∃ l : list Z,
       calculateColumnAlignment p nums (Z.of_nat n) = Some l
       ∧ length l = n
       ∧ calculateColumnAlignment p (filter (λ j, 0 ≤ j < Z.of_nat n) nums) (Z.of_nat n)
         = Some l)
  ∧ (∀ (s : State) (h r : loc) (nums : list Z) (reset : bool) (rs : list (list string)),
       mem s !! h = Some (Strings []) →
       mem s !! r = Some (Rows rs) →
       AllowRowsOnly (prn s) = true →
       ∃ (n : Z) (s' : State),
         Render h r nums reset s = Some (n, s')
         ∧ heldAlignment s' = []
         ∧ drawn s' = drawn s ++ [DrawTable (heldHeaders s') (heldRows s') []]
         ∧ (∀ nums' : list Z, Render h r nums' reset s = Some (n, s'))).
Proof.
  split.
  - intros p n nums. exists (alignCell p nums <$> seq 0 n). split_and!.
    + apply calculateColumnAlignment_map.
    + by rewrite length_fmap, length_seq.
    + rewrite calculateColumnAlignment_map. f_equal.
      apply list_fmap_ext. intros k i Hi. apply alignCell_in_range.
      apply lookup_seq in Hi. lia.
  - intros s h r nums reset rs Hh Hr Hallow.
    pose proof (λ nums', Render_draws s h r nums' reset _ _ Hh Hr (or_intror Hallow))
      as Hrun. simpl in Hrun.
    do 2 eexists. split; [apply Hrun|].
    unfold heldAlignment, heldHeaders, heldRows, drawn. simpl.
    split_and!; [done | unfold cleared, acquired; by destruct reset, (table (prn s)) | done].
Qed.

Lemma calculateColumnAlignment_total_witness :
  ∃ (n : Z) (s' : State),
    Render 3 2 [0; 5; -1] false demo = Some (n, s')
    ∧ heldAlignment s' = []
    ∧ drawn s' = drawn demo ++ [DrawTable (heldHeaders s') (heldRows s') []]
    ∧ (∀ nums' : list Z, Render 3 2 nums' false demo = Some (n, s')).
Proof.
  apply (proj2 calculateColumnAlignment_total demo 3%positive 2%positive [0; 5; -1] false
           [["a"; "3"]; ["b"; "30"]]); vm_compute; reflexivity.
Defined.

(** ** The renderer is created once *)

Section cached.
Context (k : nat) (t0 : Table).

Lemma keeps_ret {A} (P : State → Prop) (a : A) : keeps P (ret a).
Proof. intros s a' s' HP [= _ <-]. done. Qed.

Lemma keeps_panic {A} (P : State → Prop) : keeps P (@panic A).
Proof. intros s a s' _ [=]. Qed.

Lemma keeps_bind {A B} (P : State → Prop) (m : M A) (f : A → M B) :
  keeps P m → (∀ a, keeps P (f a)) → keeps P (bind m f).
Proof.
  intros Hm Hf s b s' HP. unfold bind.
  destruct (m s) as [[a s1]|] eqn:Hrun; [|done].
  intros Hk. eapply Hf; [|exact Hk]. eapply Hm; [exact HP | exact Hrun].
Qed.



Lemma keeps_askTable {A} (f : Table → A) : keeps (cachedAs k t0) (askTable f).
Proof.
  intros s a s' HP. exec. destruct (table (prn s)); [|done]. by intros [= _ <-].
Qed.

Lemma keeps_loadStrings (l : loc) : keeps (cachedAs k t0) (loadStrings l).
Proof.
  intros s a s' HP. unfold loadStrings.
  destruct (mem s !! l) as [[xs|xss|vs]|]; [|done..]. by intros [= _ <-].
Qed.

Lemma keeps_loadRows (l : loc) : keeps (cachedAs k t0) (loadRows l).
Proof.
  intros s a s' HP. unfold loadRows.
  destruct (rowsAt (mem s) l); [|done]. by intros [= _ <-].
Qed.

Lemma keeps_store (l : loc) (o : obj) : keeps (cachedAs k t0) (store l o).
Proof. intros s a s' HP [= _ <-]. exact HP. Qed.

Lemma keeps_alloc (o : obj) : keeps (cachedAs k t0) (alloc o).
Proof. intros s a s' HP [= _ <-]. exact HP. Qed.

Lemma keeps_acquireTable : keeps (cachedAs k t0) acquireTable.
Proof.
  intros s a s' HP. rewrite acquireTable_run. intros [= _ <-].
  destruct HP as (Hmade & t & Ht & Hrest).
  unfold cachedAs, acquired, madeAfter. simpl. rewrite Ht. eauto.
Qed.

Lemma keeps_getPrinter (P : State → Prop) : keeps P getPrinter.
Proof. intros s a s' HP [= _ <-]. exact HP. Qed.

Lemma keeps_assign (q : Printer) :
  keeps (cachedAs k t0) (bind getPrinter (λ p, putPrinter (assignExported q p))).
Proof.
  intros s a s' (Hmade & t & Ht & Hrest). exec. intros [= _ <-].
  split; [done|]. exists t. simpl. by rewrite Ht.
Qed.
End cached.

Create HintDb keeps.

#[local] Hint Resolve keeps_ret keeps_panic keeps_askTable keeps_loadStrings
  keeps_loadRows keeps_store keeps_alloc keeps_acquireTable keeps_getPrinter
  keeps_assign : keeps.



















(** ** PrintHeadList *)

Lemma extractCells_cells (pos : Z) (hd : StructHeader) (v : value) (b : bool) :
  snd (extractCells pos hd v b) = stringForm v.
Proof. by destruct v. Qed.

Lemma headListLoop_rows (i : Z) (items : list value)
    (rows : list (list string)) (nums : list Z) :
  fst (headListLoop i items rows nums)
  = rows ++ ((λ x, stringForm (indirectValue x)) <$> items).
Proof.
  revert i rows nums. induction items as [|x items IH]; intros i rows nums; simpl.
  - by rewrite app_nil_r.
  - destruct (extractCells i emptyHeader (indirectValue x) true) as [c cells] eqn:Hx.
    rewrite IH, <- app_assoc. simpl. do 2 f_equal.
    by rewrite <- (extractCells_cells i emptyHeader _ true), Hx.
Qed.

(** On a slice, [PrintHeadList] stores the rows and the one-label header
    list it has built and hands them to [Render] with reset=true. *)
Lemma PrintHeadList_run (s : State) (lst : value) (items : list value)
    (header : string) (filters : list Filter) :
  indirectValue lst = VSlice items →
  let built := headListLoop 0 items [] [] in
  let rowsAt := fresh (dom (mem s)) in
  let headersAt := fresh (dom (<[rowsAt := Rows (fst built)]> (mem s))) in
  let s0 := mkState (prn s)
              (<[headersAt := Strings [header]]> (<[rowsAt := Rows (fst built)]> (mem s)))
              (made s) in
  PrintHeadList lst header filters s = Render headersAt rowsAt (snd built) true s0
  ∧ mem s0 !! headersAt = Some (Strings [header])
  ∧ mem s0 !! rowsAt = Some (Rows (fst built)).
Proof.
  intros Hlst built rowsAt headersAt s0. unfold PrintHeadList. rewrite Hlst.
  fold built. destruct built as [rows nums] eqn:Hbuilt. simpl in *.
  split; [reflexivity|]. split; [apply lookup_insert_eq|].
  rewrite lookup_insert_ne, lookup_insert_eq; [done|].
  intros Heq. pose proof (is_fresh (dom (<[rowsAt := Rows rows]> (mem s)))) as Hfresh.
  fold headersAt in Hfresh. rewrite Heq in Hfresh. apply Hfresh.
  rewrite dom_insert_L. set_solver.
Qed.




(** C2: the code at the failing input.  With a filter that hides every
    string, the filter engine makes both elements of ["x", "y"] invisible,
    yet PrintHeadList emits a row for each of them: it gives the same result
    as with no filter at all, for every input. *)
Theorem PrintHeadList_ignores_filters :
  visible [hideStrings] (VString "x") = false
  ∧ visible [hideStrings] (VString "y") = false
  ∧ (∃ s' : State,
       PrintHeadList (VSlice [VString "x"; VString "y"]) "Item" [hideStrings] blank
       = Some (2, s')
       ∧ heldRows s' = [["x"]; ["y"]])
  ∧ (∀ (s : State) (lst : value) (header : string) (filters : list Filter),
       PrintHeadList lst header filters s = PrintHeadList lst header [] s).
Proof.
  split; [reflexivity|]. split; [reflexivity|]. split; [|reflexivity].
  eexists. split; vm_compute; reflexivity.
Qed.

(** ** Further properties of Render *)



(** X2: rows only.  With an empty headers list on a printer that allows
    rows alone, Render leaves the store alone and sets no header: without
    reset the renderer keeps the headers of the earlier call and its rows,
    to which the new rows are appended; with reset it holds no header and
    the new rows only. *)
Theorem Render_rows_only
    (s : State) (h r : loc) (nums : list Z) (reset : bool)
    (rs : list (list string)) :
  mem s !! h = Some (Strings []) →
  mem s !! r = Some (Rows rs) →
  AllowRowsOnly (prn s) = true →
  ∃ (n : Z) (s' : State),
    Render h r nums reset s = Some (n, s')
    ∧ heldHeaders s' = (if reset then [] else heldHeaders s)
    ∧ heldRows s' = (if reset then [] else heldRows s) ++ rs
    ∧ mem s' = mem s.
Proof.
  intros Hh Hr Hallow.
  pose proof (Render_draws s h r nums reset _ _ Hh Hr (or_intror Hallow)) as Hrun.
  simpl in Hrun. rewrite Hrun. clear Hrun.
  do 2 eexists. split; [reflexivity|].
  unfold heldHeaders, heldRows, cleared, acquired. simpl.
  destruct reset, (table (prn s)); done.
Qed.

Lemma Render_rows_only_witness :
  ∃ (n : Z) (s' : State),
    Render 3 2 [1] false demoRendered = Some (n, s')
    ∧ heldHeaders s' = heldHeaders demoRendered
    ∧ heldRows s' = heldRows demoRendered ++ [["a"; "3"]; ["b"; "30"]]
    ∧ mem s' = mem demoRendered.
Proof.
  apply (Render_rows_only demoRendered 3 2 [1] false [["a"; "3"]; ["b"; "30"]]);
    vm_compute; reflexivity.
Defined.

Lemma string_length_app (a b : string) :
  String.length (a +:+ b) = (String.length a + String.length b)%nat.
Proof. induction a as [|c a IH]; simpl; [done | by rewrite IH]. Qed.

Lemma rowLengthLabel_differs (h0 : string) (n : Z) : rowLengthLabel h0 n ≠ h0.
Proof.
  intros Heq. apply (f_equal String.length) in Heq.
  unfold rowLengthLabel in Heq. rewrite string_length_app in Heq.
  simpl in Heq. lia.
Qed.

(** X3: Render writes to the store exactly when the headers list is not
    empty and the row-count policy fires for the number of rows; in every
    other case (no headers, RowLengthTitle nil, or its answer false) the store
    after the call is the store before it. *)
Theorem Render_writes_iff_title_fires
    (s : State) (h r : loc) (nums : list Z) (reset : bool)
    (hs : list string) (rs : list (list string)) :
  mem s !! h = Some (Strings hs) →
  mem s !! r = Some (Rows rs) →
  ∃ (n : Z) (s' : State),
    Render h r nums reset s = Some (n, s')
    ∧ (mem s' = mem s ↔ hs = [] ∨ titleFires (prn s) (len rs) = false).
Proof.
  intros Hh Hr.
  destruct (Render_total s h r nums reset hs rs Hh Hr) as (s' & t' & -> & _ & Hmem).
  do 2 eexists. split; [reflexivity|]. rewrite Hmem.
  destruct hs as [|h0 tl].
  { simpl. split; [by left | done]. }
  replace (0 <? len (h0 :: tl)) with true by (symmetry; by apply len_pos).
  simpl. destruct (titleFires (prn s) (len rs)) eqn:Hfires.
  - split; [|by intros [?|?]].
    intros Heq. apply (f_equal (λ m, m !! h)) in Heq.
    rewrite lookup_insert_eq, Hh, retitled_cons, Hfires in Heq.
    injection Heq as Heq. by apply rowLengthLabel_differs in Heq.
  - split; [by right | done].
Qed.

Lemma Render_writes_iff_title_fires_witness :
  ∃ (n : Z) (s' : State),
    Render 1 2 [1] true demo = Some (n, s')
    ∧ (mem s' = mem demo ↔ ["Name"; "Age"] = [] ∨ titleFires (prn demo) 2 = false).
Proof.
  apply (Render_writes_iff_title_fires demo 1 2 [1] true ["Name"; "Age"]
           [["a"; "3"]; ["b"; "30"]]); vm_compute; reflexivity.
Defined.

(** X4: the label is rewritten in the caller's slice, so handing the same
    headers slice to Render again, while the policy fires, appends the count
    a second time: after two calls the first label carries two " (N) "
    suffixes. *)
Theorem Render_twice_stacks_the_count
    (s : State) (h r : loc) (nums nums2 : list Z) (reset reset2 : bool)
    (title : Z → bool) (h0 : string) (tl : list string) (rs : list (list string)) :
  mem s !! h = Some (Strings (h0 :: tl)) →
  mem s !! r = Some (Rows rs) →
  RowLengthTitle (prn s) = Some title →
  title (len rs) = true →
  ∃ (n1 n2 : Z) (s1 s2 : State),
    Render h r nums reset s = Some (n1, s1)
    ∧ Render h r nums2 reset2 s1 = Some (n2, s2)
    ∧ mem s2 !! h
      = Some (Strings (((h0 +:+ " (" +:+ pretty (len rs) +:+ ") ")
                          +:+ " (" +:+ pretty (len rs) +:+ ") ") :: tl))
    ∧ heldHeaders s2
      = ((h0 +:+ " (" +:+ pretty (len rs) +:+ ") ")
           +:+ " (" +:+ pretty (len rs) +:+ ") ") :: tl.
Proof.
  intros Hh Hr Htitle Hfires.
  assert (r ≠ h) as Hrh by (intros ->; congruence).
  assert (∀ p x xs, RowLengthTitle p = Some title →
            retitled p (x :: xs) (len rs) = rowLengthLabel x (len rs) :: xs) as Hre.
  { intros p x xs Hp. rewrite retitled_cons. unfold titleFires. by rewrite Hp, Hfires. }
  destruct (Render_total s h r nums reset _ rs Hh Hr) as (s1 & t1 & H1 & Hprn & Hmem).
  replace (0 <? len (h0 :: tl)) with true in Hmem by (symmetry; by apply len_pos).
  unfold titleFires in Hmem. rewrite Htitle, Hfires, Hre in Hmem by done. simpl in Hmem.
  assert (mem s1 !! h = Some (Strings (rowLengthLabel h0 (len rs) :: tl))) as Hh1.
  { by rewrite Hmem, lookup_insert_eq. }
  assert (mem s1 !! r = Some (Rows rs)) as Hr1.
  { by rewrite Hmem, lookup_insert_ne. }
  assert (RowLengthTitle (prn s1) = Some title) as Htitle1 by (by rewrite Hprn).
  assert (rowLengthLabel h0 (len rs) :: tl ≠ []) as Hne by done.
  pose proof (Render_draws s1 h r nums2 reset2 _ _ Hh1 Hr1 (or_introl Hne)) as Hrun.
  simpl in Hrun.
  replace (0 <? len (rowLengthLabel h0 (len rs) :: tl)) with true in Hrun
    by (symmetry; by apply len_pos).
  unfold titleFires in Hrun. rewrite Htitle1, Hfires, Hre in Hrun by done.
  simpl in Hrun.
  eexists _, _, s1, _. split; [exact H1|]. split; [exact Hrun|].
  unfold heldHeaders. simpl. by rewrite lookup_insert_eq.
Qed.

Lemma Render_twice_stacks_the_count_witness :
  ∃ (n1 n2 : Z) (s1 s2 : State),
    Render 1 4 [1] true demo = Some (n1, s1)
    ∧ Render 1 4 [1] true s1 = Some (n2, s2)
    ∧ mem s2 !! 1%positive = Some (Strings ["Name (4)  (4) "; "Age"])
    ∧ heldHeaders s2 = ["Name (4)  (4) "; "Age"].
Proof.
  apply (Render_twice_stacks_the_count demo 1 4 [1] [1] true true
           (λ rowsLength, 3 <? rowsLength) "Name" ["Age"]
           [["a"; "3"]; ["b"; "30"]; ["c"; "7"]; ["d"; "12"]]);
    vm_compute; reflexivity.
Defined.

(** ** The methods leave the printer's fields alone *)

Section configured.
Context (p0 : Printer).

Lemma config_onTable (f : Table → Table) : keeps (configuredAs p0) (onTable f).
Proof.
  intros s a s' [t Hp]. exec. destruct (table (prn s)) as [t1|]; [|done].
  intros [= _ <-]. exists (Some (f t1)). simpl. by rewrite Hp.
Qed.

Lemma config_callTable {A} (f : Table → A * Table) :
  keeps (configuredAs p0) (callTable f).
Proof.
  intros s a s' [t Hp]. exec. destruct (table (prn s)) as [t1|]; [|done].
  intros [= _ <-]. exists (Some (snd (f t1))). simpl. by rewrite Hp.
Qed.

Lemma config_askTable {A} (f : Table → A) : keeps (configuredAs p0) (askTable f).
Proof.
  intros s a s' HP. exec. destruct (table (prn s)); [|done]. by intros [= _ <-].
Qed.

Lemma config_loadStrings (l : loc) : keeps (configuredAs p0) (loadStrings l).
Proof.
  intros s a s' HP. unfold loadStrings.
  destruct (mem s !! l) as [[xs|xss|vs]|]; [|done..]. by intros [= _ <-].
Qed.

Lemma config_loadRows (l : loc) : keeps (configuredAs p0) (loadRows l).
Proof.
  intros s a s' HP. unfold loadRows.
  destruct (rowsAt (mem s) l); [|done]. by intros [= _ <-].
Qed.

Lemma config_store (l : loc) (o : obj) : keeps (configuredAs p0) (store l o).
Proof. intros s a s' HP [= _ <-]. exact HP. Qed.

Lemma config_alloc (o : obj) : keeps (configuredAs p0) (alloc o).
Proof. intros s a s' HP [= _ <-]. exact HP. Qed.

Lemma config_acquireTable : keeps (configuredAs p0) acquireTable.
Proof.
  intros s a s' [t Hp]. rewrite acquireTable_run. intros [= _ <-].
  exists (Some (acquired s)). simpl. by rewrite Hp.
Qed.
End configured.

Create HintDb config.

#[local] Hint Resolve keeps_ret keeps_panic keeps_getPrinter config_askTable
  config_loadStrings config_loadRows config_store config_alloc config_acquireTable
  config_onTable config_callTable : config.

Ltac config_step :=
  match goal with
  | |- keeps _ (bind _ _) => apply keeps_bind; [|intros ?]
  | |- keeps _ (if ?b then _ else _) => destruct b
  | |- keeps _ (match ?x with _ => _ end) => destruct x
  | |- keeps _ _ => solve [auto with config]
  end.

Lemma config_Render (p0 : Printer) (h r : loc) (nums : list Z) (reset : bool) :
  keeps (configuredAs p0) (Render h r nums reset).
Proof. unfold Render, renderBody. repeat config_step. Qed.

Lemma config_RenderRow (p0 : Printer) (row : list string) (nums : list Z) :
  keeps (configuredAs p0) (RenderRow row nums).
Proof. unfold RenderRow. repeat config_step. Qed.

Lemma config_PrintHeadList (p0 : Printer)
    (lst : value) (header : string) (filters : list Filter) :
  keeps (configuredAs p0) (PrintHeadList lst header filters).
Proof.
  unfold PrintHeadList. destruct (indirectValue lst); auto with config.
  destruct (headListLoop 0 elems [] []) as [rows nums].
  repeat config_step. apply config_Render.
Qed.

Lemma config_renderParsed (p0 : Printer)
    (parsed : list string * list (list string) * list Z) :
  keeps (configuredAs p0) (renderParsed parsed).
Proof.
  destruct parsed as [[hs rs] nums]. unfold renderParsed.
  repeat config_step. apply config_Render.
Qed.

Lemma config_Print (p0 : Printer) {RowFilters : Type}
    (MakeFilters : value → list Filter → RowFilters)
    (whichParser : value → value → RowFilters → list string * list (list string) * list Z)
    (input : value) (filters : list Filter) :
  keeps (configuredAs p0) (Print MakeFilters whichParser input filters).
Proof.
  unfold Print.
  destruct (kindOf (indirectValue input)); auto using keeps_panic, config_renderParsed.
Qed.

Lemma config_PrintJSON (p0 : Printer) {RowFilters : Type}
    (MakeFilters : value → list Filter → RowFilters)
    (JSONParser : value → RowFilters → list string * list (list string) * list Z)
    (input : value) (filters : list Filter) :
  keeps (configuredAs p0) (PrintJSON MakeFilters JSONParser input filters).
Proof. apply config_renderParsed. Qed.

Lemma configuredAs_start (s : State) : configuredAs (prn s) s.
Proof. exists (table (prn s)). by destruct (prn s). Qed.

(** X5: Render, RenderRow and PrintHeadList (and Print and PrintJSON, with
    any parser) never assign to the printer's configuration: after any
    sequence of these calls the printer differs from the one before at most
    in its cached renderer; the output target and every exported field are
    as they were. *)
Theorem methods_keep_configuration (cs : list Call) (s s' : State) :
  Forall (λ c, isMethod c = true) cs →
  calls cs s = Some (tt, s') →
  ∃ t : option Table, prn s' = setTable t (prn s).
Proof.
  intros Hcs Hrun. change (configuredAs (prn s) s').
  generalize (configuredAs_start s). generalize (prn s) as p0. intros p0.
  revert s Hrun. induction Hcs as [|c cs Hc _ IH]; intros s Hrun Hs.
  - by injection Hrun as <-.
  - simpl in Hrun. unfold bind in Hrun.
    destruct (call c s) as [[[] s1]|] eqn:Hcall; [|done].
    apply (IH s1 Hrun).
    assert (keeps (configuredAs p0) (call c)) as Hkeeps.
    { destruct c; try discriminate; simpl; apply keeps_bind;
        auto using keeps_ret, config_Render, config_RenderRow, config_PrintHeadList,
          config_Print, config_PrintJSON. }
    exact (Hkeeps _ _ _ Hs Hcall).
Qed.

Lemma methods_keep_configuration_witness :
  ∃ s' : State,
    calls [CallRender 1 4 [1] true; CallRenderRow ["e"; "5"] [1];
           CallPrintHeadList (VSlice [VInt 1; VInt 2]) "N" [];
           CallRender 3 2 [] false] demoStrict
    = Some (tt, s')
    ∧ ∃ t : option Table, prn s' = setTable t (prn demoStrict).
Proof.
  eexists. split; [vm_compute; reflexivity|].
  apply (methods_keep_configuration
           [CallRender 1 4 [1] true; CallRenderRow ["e"; "5"] [1];
            CallPrintHeadList (VSlice [VInt 1; VInt 2]) "N" [];
            CallRender 3 2 [] false] demoStrict).
  - repeat constructor.
  - vm_compute; reflexivity.
Defined.

(** ** The entries of the alignment list *)

(** X7: every entry calculateColumnAlignment returns is one of the
    printer's two alignments, DefaultAlignment or NumbersAlignment, whatever
    the positions are; with no positions at all (a nil list) every entry is
    DefaultAlignment. *)
Theorem calculateColumnAlignment_entries (p : Printer) (n : nat) (nums : list Z) :
  ∃ l : list Z,
    calculateColumnAlignment p nums (Z.of_nat n) = Some l
    ∧ (∀ a : Z, a ∈ l → a = DefaultAlignment p ∨ a = NumbersAlignment p)
    ∧ (nums = [] → l = replicate n (DefaultAlignment p)).
Proof.
  exists (alignCell p nums <$> seq 0 n). split; [apply calculateColumnAlignment_map|].
  split.
  - intros a (i & -> & _)%list_elem_of_fmap. rewrite alignCell_elem.
    case_decide; auto.
  - intros ->.
    rewrite (const_fmap (alignCell p []) (seq 0 n) (DefaultAlignment p)) by done.
    by rewrite length_seq.
Qed.

(** ** PrintHeadList as a whole *)

Lemma fresh_cells (m : gmap loc obj) (o : obj) (l : loc) :
  is_Some (m !! l) →
  l ≠ fresh (dom m) ∧ l ≠ fresh (dom (<[fresh (dom m) := o]> m)).
Proof.
  intros Hl. apply (proj2 (elem_of_dom m l)) in Hl.
  set (l1 := fresh (dom m)). set (l2 := fresh (dom (<[l1 := o]> m))).
  split; intros ->.
  - by apply (is_fresh (dom m)).
  - pose proof (is_fresh (dom (<[l1 := o]> m))) as Hfresh. fold l2 in Hfresh.
    rewrite dom_insert_L in Hfresh. apply Hfresh, elem_of_union_r, Hl.
Qed.

(** The state [PrintHeadList] ends in on a slice. *)
Lemma PrintHeadList_slice (s : State) (lst : value) (items : list value)
    (header : string) (filters : list Filter) :
  indirectValue lst = VSlice items →
  ∃ s' : State,
    PrintHeadList lst header filters s = Some (len items, s')
    ∧ prn s' = setTable (table (prn s')) (prn s)
    ∧ heldHeaders s' = retitled (prn s) [header] (len items)
    ∧ length (heldRows s') = length items
    ∧ drawn s' = drawn s ++ [DrawTable (heldHeaders s') (heldRows s') (heldAlignment s')]
    ∧ length (heldAlignment s') = 1%nat
    ∧ made s' = madeAfter s
    ∧ (∀ l : loc, is_Some (mem s !! l) → mem s' !! l = mem s !! l).
Proof.
  intros Hlst.
  destruct (PrintHeadList_run s lst items header filters Hlst) as (-> & Hh & Hr).
  pose proof (Render_draws _ _ _ (snd (headListLoop 0 items [] [])) true _ _ Hh Hr)
    as Hrun.
  simpl in Hrun. rewrite Hrun by (by left). clear Hrun Hh Hr.
  rewrite headListLoop_rows. simpl.
  eexists. split.
  { f_equal. f_equal. unfold len. by rewrite length_fmap. }
  unfold heldHeaders, heldRows, heldAlignment, drawn, len. simpl.
  rewrite !length_fmap. split_and!; try done.
  - unfold acquired. simpl. by destruct (table (prn s)).
  - intros l Hl.
    destruct (fresh_cells (mem s)
                (Rows ((λ x, stringForm (indirectValue x)) <$> items)) l Hl)
      as [Hl1 Hl2].
    case_match; by rewrite ?lookup_insert_ne by done.
Qed.

(** X8: PrintHeadList always returns.  On an input that is not a slice
    (after indirection) it returns 0 and changes nothing: no renderer is
    created and nothing is drawn.  On a slice, the empty one included, it
    returns the number of elements and draws exactly one table.  In both
    cases every slice that was in the store before the call is unchanged. *)
Theorem PrintHeadList_draws_only_slices
    (s : State) (lst : value) (header : string) (filters : list Filter) :
  ∃ (n : Z) (s' : State),
    PrintHeadList lst header filters s = Some (n, s')
    ∧ ((∀ items, indirectValue lst ≠ VSlice items) → n = 0 ∧ s' = s)
    ∧ (∀ items, indirectValue lst = VSlice items →
         n = len items ∧ length (drawn s') = S (length (drawn s)))
    ∧ (∀ l : loc, is_Some (mem s !! l) → mem s' !! l = mem s !! l).
Proof.
  destruct (indirectValue lst) as [| | | | | | | |items] eqn:Hlst.
  9: { destruct (PrintHeadList_slice s lst items header filters Hlst)
         as (s' & Hrun & _ & _ & _ & Hdrawn & _ & _ & Hframe).
       exists (len items), s'. split_and!; [done| |  |done].
       - intros Hno. by destruct (Hno items).
       - intros items' [= <-]. split; [done|].
         rewrite Hdrawn, length_app. simpl. lia. }
  all: exists 0, s; unfold PrintHeadList; rewrite Hlst.
  all: split_and!; [done | done | discriminate | done].
Qed.

(** ** The package-level functions *)



(** X10: the package-level PrintHeadList, on a slice, draws exactly one
    table on a renderer of its own and returns the number N of elements; its
    single header is the caller's label followed by " (N) " when the
    RowLengthTitle of the package variable Default, as it is at the call, is
    non-nil and fires for N, and the caller's label alone if and only if it
    does not. *)
Theorem package_PrintHeadList_header
    (dflt : Printer) (w : Writer) (s : State) (lst : value) (items : list value)
    (header : string) (filters : list Filter) :
  indirectValue lst = VSlice items →
  ∃ s' : State,
    tableprinter.PrintHeadList dflt w lst header filters s = Some (len items, s')
    ∧ heldHeaders s'
      = [if titleFires dflt (len items)
         then header +:+ " (" +:+ pretty (len items) +:+ ") " else header]
    ∧ (heldHeaders s' = [header] ↔ titleFires dflt (len items) = false)
    ∧ length (heldRows s') = length items
    ∧ drawn s' = [DrawTable (heldHeaders s') (heldRows s') (heldAlignment s')].
Proof.
  intros Hlst. unfold tableprinter.PrintHeadList.
  destruct (PrintHeadList_slice (mkState (New dflt w) (mem s) (made s)) lst items header
              filters Hlst)
    as (s' & Hrun & _ & Hhead & Hrows & Hdrawn & _).
  exists s'. split; [exact Hrun|].
  rewrite retitled_cons in Hhead.
  change (titleFires (prn (mkState (New dflt w) (mem s) (made s))) (len items))
    with (titleFires dflt (len items)) in Hhead.
  unfold rowLengthLabel in Hhead.
  split_and!; [exact Hhead | | exact Hrows | exact Hdrawn].
  rewrite Hhead. destruct (titleFires dflt (len items)).
  - split; [|done]. intros [= Heq]. by apply rowLengthLabel_differs in Heq.
  - done.
Qed.

Lemma package_PrintHeadList_header_witness :
  ∃ s' : State,
    tableprinter.PrintHeadList Default Stdout
      (VSlice [VInt 1; VInt 2; VInt 3; VInt 4; VInt 5]) "N" [] demoRendered
    = Some (5, s')
    ∧ heldHeaders s' = ["N (5) "]
    ∧ (heldHeaders s' = ["N"] ↔ titleFires Default 5 = false)
    ∧ length (heldRows s') = 5%nat
    ∧ drawn s' = [DrawTable (heldHeaders s') (heldRows s') (heldAlignment s')].
Proof.
  apply (package_PrintHeadList_header Default Stdout demoRendered
           (VSlice [VInt 1; VInt 2; VInt 3; VInt 4; VInt 5])
           [VInt 1; VInt 2; VInt 3; VInt 4; VInt 5] "N" []).
  reflexivity.
Defined.

(** ** Print and PrintJSON *)

(** What [Print] and [PrintJSON] do with the slices a parser returned. *)
Lemma renderParsed_run (s : State)
    (hs : list string) (rs : list (list string)) (nums : list Z) :
  ∃ s' : State,
    renderParsed (hs, rs, nums) s
    = Some (if negb (0 <? len hs) && negb (AllowRowsOnly (prn s)) then 0 else len rs, s')
    ∧ (hs ≠ [] ∨ AllowRowsOnly (prn s) = true →
         heldRows s' = rs ∧ length (drawn s') = S (length (drawn s)))
    ∧ (hs = [] → AllowRowsOnly (prn s) = false → drawn s' = drawn s)
    ∧ (∀ l : loc, is_Some (mem s !! l) → mem s' !! l = mem s !! l).
Proof.
  unfold renderParsed, alloc. unfold bind at 1 2.
  set (headersAt := fresh (dom (mem s))).
  set (m1 := <[headersAt := Strings hs]> (mem s)). simpl.
  set (rowsAt := fresh (dom m1)).
  set (s0 := mkState (prn s) (<[rowsAt := Rows rs]> m1) (made s)).
  assert (rowsAt ≠ headersAt) as Hne.
  { intros Heq. apply (is_fresh (dom m1)). fold rowsAt. rewrite Heq.
    unfold m1. rewrite dom_insert_L. by apply elem_of_union_l, elem_of_singleton. }
  assert (mem s0 !! headersAt = Some (Strings hs)) as Hh.
  { simpl. unfold m1. by rewrite lookup_insert_ne, lookup_insert_eq. }
  assert (mem s0 !! rowsAt = Some (Rows rs)) as Hr by apply lookup_insert_eq.
  assert (∀ l : loc, is_Some (mem s !! l) → l ≠ headersAt ∧ l ≠ rowsAt) as Hold.
  { intros l Hl. apply (fresh_cells _ (Strings hs)) in Hl. exact Hl. }
  destruct (0 <? len hs) eqn:Hlen; [|destruct (AllowRowsOnly (prn s)) eqn:Hallow]; simpl.
  - pose proof (Render_draws s0 headersAt rowsAt nums true _ _ Hh Hr) as Hrun.
    simpl in Hrun. rewrite Hrun by (left; by apply len_pos). clear Hrun.
    eexists. split; [reflexivity|].
    unfold heldRows, drawn, acquired. simpl. rewrite length_app. simpl.
    split_and!.
    + intros _. split; [done|]. destruct (table (prn s)); simpl; lia.
    + intros ->. discriminate.
    + intros l [Hl1 Hl2]%Hold. rewrite Hlen. simpl.
      case_match; unfold m1; by rewrite ?lookup_insert_ne by done.
  - pose proof (Render_draws s0 headersAt rowsAt nums true _ _ Hh Hr) as Hrun.
    simpl in Hrun. rewrite Hrun by (by right). clear Hrun.
    eexists. split; [reflexivity|].
    unfold heldRows, drawn, acquired. simpl. rewrite length_app. simpl.
    split_and!.
    + intros _. split; [done|]. destruct (table (prn s)); simpl; lia.
    + done.
    + intros l [Hl1 Hl2]%Hold. rewrite Hlen. simpl.
      unfold m1; by rewrite ?lookup_insert_ne by done.
  - assert (hs = []) as ->.
    { destruct hs; [done|]. by rewrite (proj2 (len_pos (_ :: _))) in Hlen. }
    rewrite (Render_refuses s0) by done.
    eexists. split; [reflexivity|].
    unfold drawn, acquired. simpl.
    split_and!.
    + by intros [?|?].
    + intros _ _. by destruct (table (prn s)).
    + intros l [Hl1 Hl2]%Hold. unfold m1; by rewrite ?lookup_insert_ne by done.
Qed.

(** X11: on a value that is not nil, Print renders what the parser chosen
    for the value returns, always from a reset renderer: when the parser
    gives headers, or rows alone are allowed, the renderer ends up holding
    exactly the parsed rows, whatever it held before, one table is drawn and
    the result is the number of parsed rows; otherwise the result is 0 and
    nothing is drawn.  No slice that was in the store before the call is
    touched. *)
Theorem Print_renders_parsed
    {RowFilters : Type} (MakeFilters : value → list Filter → RowFilters)
    (whichParser : value → value → RowFilters → list string * list (list string) * list Z)
    (input : value) (filters : list Filter) (s : State)
    (hs : list string) (rs : list (list string)) (nums : list Z) :
  kindOf (indirectValue input) ≠ Invalid →
  whichParser (indirectValue input) (indirectValue input)
    (MakeFilters (indirectValue input) filters) = (hs, rs, nums) →
  ∃ s' : State,
    Print MakeFilters whichParser input filters s
    = Some (if negb (0 <? len hs) && negb (AllowRowsOnly (prn s)) then 0 else len rs, s')
    ∧ (hs ≠ [] ∨ AllowRowsOnly (prn s) = true →
         heldRows s' = rs ∧ length (drawn s') = S (length (drawn s)))
    ∧ (hs = [] → AllowRowsOnly (prn s) = false → drawn s' = drawn s)
    ∧ (∀ l : loc, is_Some (mem s !! l) → mem s' !! l = mem s !! l).
Proof.
  intros Hkind Hparse. unfold Print. rewrite Hparse.
  destruct (kindOf (indirectValue input)); try done; apply renderParsed_run.
Qed.

Lemma Print_renders_parsed_witness :
  ∃ s' : State,
    Print noRowFilters (λ _, demoParser) (VPtr (VSlice [VInt 1])) [] demoRendered
    = Some (2, s')
    ∧ (["Name"; "Age"] ≠ [] ∨ AllowRowsOnly (prn demoRendered) = true →
         heldRows s' = [["a"; "3"]; ["b"; "30"]]
         ∧ length (drawn s') = S (length (drawn demoRendered)))
    ∧ (["Name"; "Age"] = [] → AllowRowsOnly (prn demoRendered) = false →
         drawn s' = drawn demoRendered)
    ∧ (∀ l : loc, is_Some (mem demoRendered !! l) →
         mem s' !! l = mem demoRendered !! l).
Proof.
  apply (Print_renders_parsed noRowFilters (λ _, demoParser) (VPtr (VSlice [VInt 1])) []
           demoRendered ["Name"; "Age"] [["a"; "3"]; ["b"; "30"]] [1]).
  - discriminate.
  - reflexivity.
Defined.
